(** * Todo backend: task schemas, access gate, task routes and JWKS cache

    A shallow embedding of the Python backend
    (src/models/task.py, src/api/middleware/auth.py,
    src/api/routes/tasks.py, src/services/jwks.py) and the properties
    of its validation rules, of its ownership checks and of its key-set
    cache.

    Conventions.
    - A Python [str] is a [string]: a sequence of code points below 256.
      [len] is [String.length]; whitespace and lower-casing are Python's
      on these code points.
    - [datetime] values are integers (microseconds on the UTC time line),
      [date] values are integers (day numbers); only their order and
      equality matter here.  Every call of [datetime.utcnow] is an
      argument of the function that makes it: the reading of the clock.
    - A JSON request body is given field by field ([Supplied]): a key may
      be absent, present with [null], or present with a value of the
      field's JSON type.  The framework validates the body against the
      handler's schema before it calls the handler; the HTTP status it
      gives a validation error is its own and is not part of the model,
      which names the error ([RequestValidationError]).
    - An exception is a value of [Exception]; a function that may raise
      returns a [Result].  Log lines are not modelled.
    - The table [tasks] is a list of rows with the constraints the
      [Task] model declares: the primary key, [nullable=False] and
      [max_length].  A write that violates one raises and leaves the
      table as it was; other datastore failures are not modelled.
    - The libraries the code calls (the JWT decoder, the HTTP client)
      are parameters: their outcome is an argument of the function. *)

From Stdlib Require Import ZArith List String Ascii Bool Lia.
From Stdlib Require Import Sorted Permutation.
Import ListNotations.
Local Open Scope string_scope.
Local Open Scope Z_scope.

Set Implicit Arguments.

(* ================================================================== *)
(** ** Python strings *)
(* ================================================================== *)

Module Py.

(** [str.isspace] on one character: the code points below 256 that
    Python treats as whitespace. *)
Definition isspace (c : ascii) : bool :=
  let n := nat_of_ascii c in
  (((9 <=? n) && (n <=? 13)) || ((28 <=? n) && (n <=? 32))
   || (n =? 133) || (n =? 160))%nat.

(** [str.lstrip()] *)
Fixpoint lstrip (s : string) : string :=
  match s with
  | EmptyString => EmptyString
  | String c s' => if isspace c then lstrip s' else s
  end.

(** [str.rstrip()] *)
Fixpoint rstrip (s : string) : string :=
  match s with
  | EmptyString => EmptyString
  | String c s' =>
      match rstrip s' with
      | EmptyString => if isspace c then EmptyString else String c EmptyString
      | r => String c r
      end
  end.

(** [str.strip()] *)
Definition strip (s : string) : string := rstrip (lstrip s).

(** [str.lower()] on one character (code points below 256). *)
Definition lower_char (c : ascii) : ascii :=
  let n := nat_of_ascii c in
  if (((65 <=? n) && (n <=? 90))
      || ((192 <=? n) && (n <=? 222) && negb (n =? 215)))%nat
  then ascii_of_nat (n + 32) else c.

(** [str.lower()] *)
Fixpoint lower (s : string) : string :=
  match s with
  | EmptyString => EmptyString
  | String c s' => String (lower_char c) (lower s')
  end.

(** [len(s)] *)
Definition len (s : string) : nat := String.length s.

(** Truthiness of a string: [bool(s)]. *)
Definition truthy (s : string) : bool :=
  match s with EmptyString => false | _ => true end.

(** [x in xs] for a list of strings. *)
Definition contains (xs : list string) (x : string) : bool :=
  existsb (String.eqb x) xs.

(** Every character of the string is whitespace. *)
Fixpoint all_space (s : string) : bool :=
  match s with
  | EmptyString => true
  | String c s' => isspace c && all_space s'
  end.

(** First and last character, when there is one. *)
Definition first_char (s : string) : option ascii :=
  match s with EmptyString => None | String c _ => Some c end.

Fixpoint last_char (s : string) : option ascii :=
  match s with
  | EmptyString => None
  | String c EmptyString => Some c
  | String _ s' => last_char s'
  end.

End Py.

(* ================================================================== *)
(** ** Exceptions and results *)
(* ================================================================== *)

(** One entry of a pydantic validation error: the field, the kind of
    error and, for a [ValueError] raised by a validator, its message. *)
Inductive ErrorKind : Type :=
| missing
| string_type
| bool_type
| string_too_short
| string_too_long
| value_error (msg : string).

Record ErrorDetails : Type := mkError { loc : string; kind : ErrorKind }.

Inductive Exception : Type :=
| HTTPException (status_code : Z) (detail : string)
| RequestValidationError (errors : list ErrorDetails)
| IntegrityError
| DataError
| MultipleResultsFound
| InvalidRequestError
| ResponseValidationError
| HTTPError
| AttributeError
| TypeError
| KeyError
| JSONDecodeError.

Inductive Result (A : Type) : Type :=
| Return (a : A)
| Raise (e : Exception).
Arguments Return {A} a.
Arguments Raise {A} e.

Definition bind {A B} (r : Result A) (k : A -> Result B) : Result B :=
  match r with
  | Return a => k a
  | Raise e => Raise e
  end.

Notation "x <- r ;; k" := (bind r (fun x => k))
  (at level 61, r at next level, right associativity).

Definition HTTP_401_UNAUTHORIZED : Z := 401.
Definition HTTP_403_FORBIDDEN : Z := 403.
Definition HTTP_404_NOT_FOUND : Z := 404.
Definition HTTP_500_INTERNAL_SERVER_ERROR : Z := 500.

(** The error kinds of the specification, read off an exception. *)
Definition is_Unauthenticated (e : Exception) : Prop :=
  e = HTTPException HTTP_401_UNAUTHORIZED "Not authenticated".
Definition is_Forbidden (e : Exception) : Prop :=
  e = HTTPException HTTP_403_FORBIDDEN "Access denied".
Definition is_NotFound (e : Exception) : Prop :=
  e = HTTPException HTTP_404_NOT_FOUND "Task not found".
Definition is_ValidationError (e : Exception) : Prop :=
  exists errs, errs <> [] /\ e = RequestValidationError errs.

(* ================================================================== *)
(** ** Request bodies and schemas (src/models/task.py) *)
(* ================================================================== *)

Definition datetime := Z.
Definition date := Z.

(** A key of a JSON body. *)
Inductive Supplied (A : Type) : Type :=
| Absent
| Null
| Given (a : A).
Arguments Absent {A}.
Arguments Null {A}.
Arguments Given {A} a.

Module Body.
Record t : Type := mk {
  title : Supplied string;
  description : Supplied string;
  completed : Supplied bool;
  priority : Supplied string;
  due_date : Supplied date
}.
End Body.

(** Outcome of validating one field: its value or one error entry. *)
Definition Field (A : Type) : Type := (ErrorDetails + A)%type.

Definition errors_of {A} (f : Field A) : list ErrorDetails :=
  match f with inl e => [e] | inr _ => [] end.

(** [Field(min_length=1, max_length=500)] on a string. *)
Definition check_length (field : string) (min_length max_length : nat)
           (v : string) : Field string :=
  if (Py.len v <? min_length)%nat then inl (mkError field string_too_short)
  else if (max_length <? Py.len v)%nat then inl (mkError field string_too_long)
  else inr v.

(** An after-validator runs on the value the field constraints accepted. *)
Definition and_then {A B} (f : Field A) (k : A -> Field B) : Field B :=
  match f with inl e => inl e | inr a => k a end.

Definition allowed : list string := ["low"; "medium"; "high"].

Definition priority_message : string :=
  "Priority must be one of: low, medium, high".
Definition title_message : string :=
  "Title cannot be empty or whitespace".

(** [Optional[str] = Field(default=None, max_length=5000)] *)
Definition description_field (b : Supplied string) : Field (option string) :=
  match b with
  | Absent => inr None
  | Null => inr None
  | Given v =>
      if (5000 <? Py.len v)%nat then inl (mkError "description" string_too_long)
      else inr (Some v)
  end.

(** [Optional[date] = Field(default=None)] *)
Definition due_date_field (b : Supplied date) : Field (option date) :=
  match b with
  | Absent => inr None
  | Null => inr None
  | Given d => inr (Some d)
  end.

Module TaskCreate.

Record t : Type := mk {
  title : string;
  description : option string;
  priority : option string;
  due_date : option date
}.

Definition title_not_empty (v : string) : Field string :=
  if negb (Py.truthy v) || negb (Py.truthy (Py.strip v))
  then inl (mkError "title" (value_error title_message))
  else inr (Py.strip v).

Definition validate_priority (v : option string) : Field string :=
  match v with
  | None => inr "medium"
  | Some v =>
      if negb (Py.contains allowed (Py.lower v))
      then inl (mkError "priority" (value_error priority_message))
      else inr (Py.lower v)
  end.

Definition title_field (b : Supplied string) : Field string :=
  match b with
  | Absent => inl (mkError "title" missing)
  | Null => inl (mkError "title" string_type)
  | Given v => and_then (check_length "title" 1 500 v) title_not_empty
  end.

(** The default is taken as it is; validators run on supplied values. *)
Definition priority_field (b : Supplied string) : Field (option string) :=
  match b with
  | Absent => inr (Some "medium")
  | Null => and_then (validate_priority None) (fun p => inr (Some p))
  | Given v => and_then (validate_priority (Some v)) (fun p => inr (Some p))
  end.

Definition model_validate (b : Body.t) : Result t :=
  match title_field (Body.title b), description_field (Body.description b),
        priority_field (Body.priority b), due_date_field (Body.due_date b) with
  | inr ti, inr de, inr pr, inr du => Return (mk ti de pr du)
  | ft, fd, fp, fu =>
      Raise (RequestValidationError
               (errors_of ft ++ errors_of fd ++ errors_of fp ++ errors_of fu))
  end.

End TaskCreate.

Module TaskUpdate.

Record t : Type := mk {
  title : string;
  description : option string;
  completed : bool;
  priority : string;
  due_date : option date
}.

Definition title_not_empty (v : string) : Field string :=
  if negb (Py.truthy v) || negb (Py.truthy (Py.strip v))
  then inl (mkError "title" (value_error title_message))
  else inr (Py.strip v).

Definition validate_priority (v : string) : Field string :=
  if negb (Py.contains allowed (Py.lower v))
  then inl (mkError "priority" (value_error priority_message))
  else inr (Py.lower v).

Definition title_field (b : Supplied string) : Field string :=
  match b with
  | Absent => inl (mkError "title" missing)
  | Null => inl (mkError "title" string_type)
  | Given v => and_then (check_length "title" 1 500 v) title_not_empty
  end.

Definition completed_field (b : Supplied bool) : Field bool :=
  match b with
  | Absent => inl (mkError "completed" missing)
  | Null => inl (mkError "completed" bool_type)
  | Given v => inr v
  end.

Definition priority_field (b : Supplied string) : Field string :=
  match b with
  | Absent => inr "medium"
  | Null => inl (mkError "priority" string_type)
  | Given v => validate_priority v
  end.

Definition model_validate (b : Body.t) : Result t :=
  match title_field (Body.title b), description_field (Body.description b),
        completed_field (Body.completed b), priority_field (Body.priority b),
        due_date_field (Body.due_date b) with
  | inr ti, inr de, inr co, inr pr, inr du => Return (mk ti de co pr du)
  | ft, fd, fc, fp, fu =>
      Raise (RequestValidationError
               (errors_of ft ++ errors_of fd ++ errors_of fc
                ++ errors_of fp ++ errors_of fu))
  end.

End TaskUpdate.

Module TaskPartialUpdate.

(** The five optional fields and the set of fields the body named
    ([model_fields_set]). *)
Record t : Type := mk {
  title : option string;
  description : option string;
  completed : option bool;
  priority : option string;
  due_date : option date;
  model_fields_set : list string
}.

Definition title_not_empty (v : option string) : Field (option string) :=
  if (match v with
      | Some s => negb (Py.truthy s) || negb (Py.truthy (Py.strip s))
      | None => false
      end)
  then inl (mkError "title" (value_error title_message))
  else inr (match v with
            | Some s => if Py.truthy s then Some (Py.strip s) else v
            | None => v
            end).

Definition validate_priority (v : option string) : Field (option string) :=
  match v with
  | None => inr v
  | Some s =>
      if negb (Py.contains allowed (Py.lower s))
      then inl (mkError "priority" (value_error priority_message))
      else inr (Some (Py.lower s))
  end.

Definition title_field (b : Supplied string) : Field (option string) :=
  match b with
  | Absent => inr None
  | Null => title_not_empty None
  | Given v =>
      and_then (check_length "title" 1 500 v)
               (fun v => title_not_empty (Some v))
  end.

Definition completed_field (b : Supplied bool) : Field (option bool) :=
  match b with
  | Absent => inr None
  | Null => inr None
  | Given v => inr (Some v)
  end.

Definition priority_field (b : Supplied string) : Field (option string) :=
  match b with
  | Absent => inr None
  | Null => validate_priority None
  | Given v => validate_priority (Some v)
  end.

Definition is_set {A} (b : Supplied A) : bool :=
  match b with Absent => false | _ => true end.

Definition fields_set_of (b : Body.t) : list string :=
  (if is_set (Body.title b) then ["title"] else [])
  ++ (if is_set (Body.description b) then ["description"] else [])
  ++ (if is_set (Body.completed b) then ["completed"] else [])
  ++ (if is_set (Body.priority b) then ["priority"] else [])
  ++ (if is_set (Body.due_date b) then ["due_date"] else []).

Definition model_validate (b : Body.t) : Result t :=
  match title_field (Body.title b), description_field (Body.description b),
        completed_field (Body.completed b), priority_field (Body.priority b),
        due_date_field (Body.due_date b) with
  | inr ti, inr de, inr co, inr pr, inr du =>
      Return (mk ti de co pr du (fields_set_of b))
  | ft, fd, fc, fp, fu =>
      Raise (RequestValidationError
               (errors_of ft ++ errors_of fd ++ errors_of fc
                ++ errors_of fp ++ errors_of fu))
  end.

(** One item of the dictionary [model_dump] returns: a field name with
    its value, [None] standing for Python's [None]. *)
Inductive Item : Type :=
| title_item (v : option string)
| description_item (v : option string)
| completed_item (v : option bool)
| priority_item (v : option string)
| due_date_item (v : option date).

Definition key (i : Item) : string :=
  match i with
  | title_item _ => "title"
  | description_item _ => "description"
  | completed_item _ => "completed"
  | priority_item _ => "priority"
  | due_date_item _ => "due_date"
  end.

(** [model_dump(exclude_unset=True)]: the fields of [model_fields_set],
    in declaration order. *)
Definition model_dump_exclude_unset (d : t) : list Item :=
  filter (fun i => Py.contains (model_fields_set d) (key i))
         [title_item (title d); description_item (description d);
          completed_item (completed d); priority_item (priority d);
          due_date_item (due_date d)].

End TaskPartialUpdate.

(* ================================================================== *)
(** ** The task entity, its table and its response schema *)
(* ================================================================== *)

Module Task.

(** The ORM object.  Its attributes are Python attributes: an
    assignment may store [None] in any of them, the table's
    constraints are checked when the object is written. *)
Record t : Type := mk {
  id : option Z;
  user_id : string;
  title : option string;
  description : option string;
  completed : option bool;
  priority : option string;
  due_date : option date;
  created_at : datetime;
  updated_at : datetime
}.

Definition set_title v (x : t) : t :=
  mk (id x) (user_id x) v (description x) (completed x) (priority x)
     (due_date x) (created_at x) (updated_at x).
Definition set_description v (x : t) : t :=
  mk (id x) (user_id x) (title x) v (completed x) (priority x)
     (due_date x) (created_at x) (updated_at x).
Definition set_completed v (x : t) : t :=
  mk (id x) (user_id x) (title x) (description x) v (priority x)
     (due_date x) (created_at x) (updated_at x).
Definition set_priority v (x : t) : t :=
  mk (id x) (user_id x) (title x) (description x) (completed x) v
     (due_date x) (created_at x) (updated_at x).
Definition set_due_date v (x : t) : t :=
  mk (id x) (user_id x) (title x) (description x) (completed x) (priority x)
     v (created_at x) (updated_at x).
Definition set_updated_at v (x : t) : t :=
  mk (id x) (user_id x) (title x) (description x) (completed x) (priority x)
     (due_date x) (created_at x) v.
Definition set_id v (x : t) : t :=
  mk v (user_id x) (title x) (description x) (completed x) (priority x)
     (due_date x) (created_at x) (updated_at x).

End Task.

Module Row.

(** A row of the table [tasks]: the columns with their SQL types. *)
Record t : Type := mk {
  id : Z;
  user_id : string;
  title : string;
  description : option string;
  completed : bool;
  priority : string;
  due_date : option date;
  created_at : datetime;
  updated_at : datetime
}.

End Row.

Module TaskResponse.

Record t : Type := mk {
  id : Z;
  user_id : string;
  title : string;
  description : option string;
  completed : bool;
  priority : string;
  due_date : option date;
  created_at : datetime;
  updated_at : datetime
}.

(** [TaskResponse.model_validate(task)] with [from_attributes]. *)
Definition model_validate (x : Task.t) : Result t :=
  match Task.id x, Task.title x, Task.completed x, Task.priority x with
  | Some i, Some ti, Some co, Some pr =>
      Return (mk i (Task.user_id x) ti (Task.description x) co pr
                 (Task.due_date x) (Task.created_at x) (Task.updated_at x))
  | _, _, _, _ => Raise ResponseValidationError
  end.

End TaskResponse.

(* ================================================================== *)
(** ** The datastore *)
(* ================================================================== *)

Module Db.
(** The committed contents of the table [tasks] and the next value of
    the sequence behind its primary key. *)
Record t : Type := mk { rows : list Row.t; next_id : Z }.
End Db.

(** A computation in a request's database session.  Only committed data
    is in [Db.t]: changes pending in the session live in the [Task.t]
    the handler holds, a failed write leaves the table as it was, and
    so does a rollback. *)
Definition Session (A : Type) : Type := Db.t -> Result A * Db.t.

Definition ret {A} (a : A) : Session A := fun db => (Return a, db).
Definition raise {A} (e : Exception) : Session A := fun db => (Raise e, db).
Definition lift {A} (r : Result A) : Session A := fun db => (r, db).

Definition sbind {A B} (m : Session A) (k : A -> Session B) : Session B :=
  fun db =>
    match m db with
    | (Return a, db') => k a db'
    | (Raise e, db') => (Raise e, db')
    end.

Notation "x <~ m ;; k" := (sbind m (fun x => k))
  (at level 61, m at next level, right associativity).
Notation "m ;;; k" := (sbind m (fun _ => k))
  (at level 61, right associativity).

(** [try: body except ... as e: handler e] *)
Definition try_except {A} (body : Session A)
           (handler : Exception -> Session A) : Session A :=
  fun db =>
    match body db with
    | (Return a, db') => (Return a, db')
    | (Raise e, db') => handler e db'
    end.

(** The ORM object of a row. *)
Definition load (r : Row.t) : Task.t :=
  Task.mk (Some (Row.id r)) (Row.user_id r) (Some (Row.title r))
          (Row.description r) (Some (Row.completed r)) (Some (Row.priority r))
          (Row.due_date r) (Row.created_at r) (Row.updated_at r).

Definition fits (max_length : nat) (s : string) : bool :=
  (Py.len s <=? max_length)%nat.

Definition fits_opt (max_length : nat) (s : option string) : bool :=
  match s with Some s => fits max_length s | None => true end.

(** Writing an object: the columns declared [nullable=False] refuse
    [None], the columns declared with [max_length] refuse a longer
    string. *)
Definition check_constraints (x : Task.t) : Result Row.t :=
  match Task.id x, Task.title x, Task.completed x, Task.priority x with
  | Some i, Some ti, Some co, Some pr =>
      if fits 255 (Task.user_id x) && fits 500 ti
         && fits_opt 5000 (Task.description x) && fits 10 pr
      then Return (Row.mk i (Task.user_id x) ti (Task.description x) co pr
                          (Task.due_date x) (Task.created_at x)
                          (Task.updated_at x))
      else Raise DataError
  | _, _, _, _ => Raise IntegrityError
  end.

(** [select(Task).where(Task.id == task_id, Task.user_id == user_id)] *)
Definition where_id_and_user_id (task_id : Z) (user_id : string)
           (r : Row.t) : bool :=
  (Row.id r =? task_id) && String.eqb (Row.user_id r) user_id.

Definition execute_select (task_id : Z) (user_id : string)
  : Session (list Row.t) :=
  fun db => (Return (filter (where_id_and_user_id task_id user_id) (Db.rows db)),
             db).

(** [result.scalar_one_or_none()] *)
Definition scalar_one_or_none (result : list Row.t) : Session (option Task.t) :=
  match result with
  | [] => ret None
  | [r] => ret (Some (load r))
  | _ => raise MultipleResultsFound
  end.

(** [session.add(task); await session.commit()] for a new object: the
    sequence gives the primary key. *)
Definition add_commit (task : Task.t) : Session Task.t :=
  fun db =>
    let task' := Task.set_id (Some (Db.next_id db)) task in
    match check_constraints task' with
    | Return row =>
        (Return task', Db.mk (Db.rows db ++ [row]) (Db.next_id db + 1))
    | Raise e => (Raise e, db)
    end.

Definition has_id (i : Z) (r : Row.t) : bool := Row.id r =? i.

(** [await session.commit()] with a modified object. *)
Definition commit (task : Task.t) : Session unit :=
  fun db =>
    match check_constraints task with
    | Return row =>
        (Return tt,
         Db.mk (map (fun r => if has_id (Row.id row) r then row else r)
                    (Db.rows db))
               (Db.next_id db))
    | Raise e => (Raise e, db)
    end.

(** [await session.delete(task); await session.commit()] *)
Definition delete_commit (task : Task.t) : Session unit :=
  fun db =>
    match Task.id task with
    | Some i =>
        (Return tt,
         Db.mk (filter (fun r => negb (has_id i r)) (Db.rows db))
               (Db.next_id db))
    | None => (Raise InvalidRequestError, db)
    end.

(** [await session.refresh(task)] *)
Definition refresh (task : Task.t) : Session Task.t :=
  fun db =>
    match Task.id task with
    | Some i =>
        match find (has_id i) (Db.rows db) with
        | Some r => (Return (load r), db)
        | None => (Raise InvalidRequestError, db)
        end
    | None => (Raise InvalidRequestError, db)
    end.

(** [await session.rollback()] *)
Definition rollback : Session unit := ret tt.

(** The column lengths of a stored row. *)
Definition row_fits (r : Row.t) : bool :=
  fits 255 (Row.user_id r) && fits 500 (Row.title r)
  && fits_opt 5000 (Row.description r) && fits 10 (Row.priority r).

(** The invariant of the table: the primary key is unique and below the
    sequence, and every row respects the column lengths. *)
Definition db_wf (db : Db.t) : Prop :=
  NoDup (map Row.id (Db.rows db))
  /\ Forall (fun r => Row.id r < Db.next_id db) (Db.rows db)
  /\ Forall (fun r => row_fits r = true) (Db.rows db).

(* ================================================================== *)
(** ** The access gate (src/api/middleware/auth.py) *)
(* ================================================================== *)

Definition verify_user_access (token_user_id path_user_id : string)
  : Result unit :=
  if negb (String.eqb token_user_id path_user_id)
  then Raise (HTTPException HTTP_403_FORBIDDEN "Access denied")
  else Return tt.

(* ================================================================== *)
(** ** The task routes (src/api/routes/tasks.py) *)
(* ================================================================== *)

Definition internal_server_error : Exception :=
  HTTPException HTTP_500_INTERNAL_SERVER_ERROR "Internal server error".

Definition not_found : Exception :=
  HTTPException HTTP_404_NOT_FOUND "Task not found".

(** [except HTTPException: raise] followed by
    [except Exception: await session.rollback(); raise HTTPException(500)] *)
Definition reraise_http_else_500 {A} (with_rollback : bool) (e : Exception)
  : Session A :=
  match e with
  | HTTPException _ _ => raise e
  | _ => (if with_rollback then rollback else ret tt) ;;; raise internal_server_error
  end.

(** [except Exception: await session.rollback(); raise HTTPException(500)] *)
Definition all_to_500 {A} (e : Exception) : Session A :=
  rollback ;;; raise internal_server_error.

(** [x or default] on an optional string. *)
Definition or_default (x : option string) (default : string) : string :=
  match x with
  | Some s => if Py.truthy s then s else default
  | None => default
  end.

(** [create_task].  [created_now] and [updated_now] are the two readings
    of [datetime.utcnow] that the default factories of [created_at] and
    [updated_at] take, in this order, when [Task(...)] is built. *)
Definition create_task (user_id : string) (task_data : TaskCreate.t)
           (current_user_id : string) (created_now updated_now : datetime)
  : Session TaskResponse.t :=
  lift (verify_user_access current_user_id user_id) ;;;
  try_except
    (let task :=
       Task.mk None user_id (Some (TaskCreate.title task_data))
               (TaskCreate.description task_data) (Some false)
               (Some (or_default (TaskCreate.priority task_data) "medium"))
               (TaskCreate.due_date task_data) created_now updated_now in
     task <~ add_commit task ;;
     task <~ refresh task ;;
     lift (TaskResponse.model_validate task))
    all_to_500.

Definition get_task (user_id : string) (task_id : Z) (current_user_id : string)
  : Session TaskResponse.t :=
  lift (verify_user_access current_user_id user_id) ;;;
  try_except
    (result <~ execute_select task_id user_id ;;
     task <~ scalar_one_or_none result ;;
     match task with
     | None => raise not_found
     | Some task => lift (TaskResponse.model_validate task)
     end)
    (reraise_http_else_500 false).

(** [update_task]; [now] is the reading of [datetime.utcnow]. *)
Definition update_task (user_id : string) (task_id : Z)
           (task_data : TaskUpdate.t) (current_user_id : string)
           (now : datetime) : Session TaskResponse.t :=
  lift (verify_user_access current_user_id user_id) ;;;
  try_except
    (result <~ execute_select task_id user_id ;;
     task <~ scalar_one_or_none result ;;
     match task with
     | None => raise not_found
     | Some task =>
         let task := Task.set_title (Some (TaskUpdate.title task_data)) task in
         let task := Task.set_description (TaskUpdate.description task_data) task in
         let task := Task.set_completed (Some (TaskUpdate.completed task_data)) task in
         let task := Task.set_priority (Some (TaskUpdate.priority task_data)) task in
         let task := Task.set_due_date (TaskUpdate.due_date task_data) task in
         let task := Task.set_updated_at now task in
         commit task ;;;
         task <~ refresh task ;;
         lift (TaskResponse.model_validate task)
     end)
    (reraise_http_else_500 true).

(** [setattr(task, field, value)] for one item of [update_data]. *)
Definition setattr (task : Task.t) (item : TaskPartialUpdate.Item) : Task.t :=
  match item with
  | TaskPartialUpdate.title_item v => Task.set_title v task
  | TaskPartialUpdate.description_item v => Task.set_description v task
  | TaskPartialUpdate.completed_item v => Task.set_completed v task
  | TaskPartialUpdate.priority_item v => Task.set_priority v task
  | TaskPartialUpdate.due_date_item v => Task.set_due_date v task
  end.

Definition patch_task (user_id : string) (task_id : Z)
           (task_data : TaskPartialUpdate.t) (current_user_id : string)
           (now : datetime) : Session TaskResponse.t :=
  lift (verify_user_access current_user_id user_id) ;;;
  try_except
    (result <~ execute_select task_id user_id ;;
     task <~ scalar_one_or_none result ;;
     match task with
     | None => raise not_found
     | Some task =>
         let update_data := TaskPartialUpdate.model_dump_exclude_unset task_data in
         let task := fold_left setattr update_data task in
         let task := Task.set_updated_at now task in
         commit task ;;;
         task <~ refresh task ;;
         lift (TaskResponse.model_validate task)
     end)
    (reraise_http_else_500 true).

Definition delete_task (user_id : string) (task_id : Z)
           (current_user_id : string) : Session unit :=
  lift (verify_user_access current_user_id user_id) ;;;
  try_except
    (result <~ execute_select task_id user_id ;;
     task <~ scalar_one_or_none result ;;
     match task with
     | None => raise not_found
     | Some task => delete_commit task ;;; ret tt
     end)
    (reraise_http_else_500 true).

(** The framework validates the JSON body against the handler's schema
    and calls the handler only with a validated object. *)
Definition post_route (user_id : string) (body : Body.t)
           (current_user_id : string) (created_now updated_now : datetime)
  : Session TaskResponse.t :=
  task_data <~ lift (TaskCreate.model_validate body) ;;
  create_task user_id task_data current_user_id created_now updated_now.

Definition put_route (user_id : string) (task_id : Z) (body : Body.t)
           (current_user_id : string) (now : datetime)
  : Session TaskResponse.t :=
  task_data <~ lift (TaskUpdate.model_validate body) ;;
  update_task user_id task_id task_data current_user_id now.

Definition patch_route (user_id : string) (task_id : Z) (body : Body.t)
           (current_user_id : string) (now : datetime)
  : Session TaskResponse.t :=
  task_data <~ lift (TaskPartialUpdate.model_validate body) ;;
  patch_task user_id task_id task_data current_user_id now.

(* ================================================================== *)
(** ** Token verification (src/api/middleware/auth.py) *)
(* ================================================================== *)

(** A decoded JSON value: a claim of a token, a key set. *)
#[warnings="-register-all"]
Inductive Json : Type :=
| JNull
| JBool (b : bool)
| JInt (z : Z)
| JStr (s : string)
| JList (l : list Json)
| JDict (d : list (string * Json)).

(** [d.get(key)]: [None] when the key is missing. *)
Fixpoint dict_get (d : list (string * Json)) (key : string) : Json :=
  match d with
  | [] => JNull
  | (k, v) :: d' => if String.eqb k key then v else dict_get d' key
  end.

(** Truthiness of a value: [bool(v)]. *)
Definition truthy (v : Json) : bool :=
  match v with
  | JNull => false
  | JBool b => b
  | JInt z => negb (z =? 0)
  | JStr s => Py.truthy s
  | JList l => match l with [] => false | _ => true end
  | JDict d => match d with [] => false | _ => true end
  end.

(** What the JWT library does with a token and the key set: the decoded
    payload once signature, [exp] and [iat] have been checked, or one of
    its exceptions. *)
Inductive JwtOutcome : Type :=
| Decoded (payload : list (string * Json))
| ExpiredSignatureError
| InvalidTokenError
| OtherError.

Definition not_authenticated : Exception :=
  HTTPException HTTP_401_UNAUTHORIZED "Not authenticated".

Section TokenVerifier.

Variable jwt_decode : string -> JwtOutcome.

(** The option ["require": ["sub", "exp", "iat"]]: a required claim
    that is missing or [None] is an invalid token. *)
Definition require : list string := ["sub"; "exp"; "iat"].

Definition has_claim (payload : list (string * Json)) (claim : string) : bool :=
  match dict_get payload claim with JNull => false | _ => true end.

Definition verify_token (token : string) : Result (list (string * Json)) :=
  match jwt_decode token with
  | Decoded payload =>
      if forallb (has_claim payload) require then Return payload
      else Raise not_authenticated
  | ExpiredSignatureError => Raise not_authenticated
  | InvalidTokenError => Raise not_authenticated
  | OtherError => Raise not_authenticated
  end.

Definition get_user_id_from_token (token : string) : Result Json :=
  payload <- verify_token token ;;
  let user_id := dict_get payload "sub" in
  if negb (truthy user_id) then Raise not_authenticated
  else Return user_id.

End TokenVerifier.

(* ================================================================== *)
(** ** The key-set cache (src/services/jwks.py) *)
(* ================================================================== *)

Module TTLCache.

(** One entry: the key, its value and the time it expires at.  The
    entries are kept oldest first. *)
Record link : Type := mkLink { key : string; value : Json; expires : Z }.

Record t : Type := mk { maxsize : nat; ttl : Z; links : list link }.

Definition has_key (k : string) (l : link) : bool := String.eqb (key l) k.

(** [key in cache] at timer reading [now] *)
Definition contains (c : t) (k : string) (now : Z) : bool :=
  match find (has_key k) (links c) with
  | Some l => now <? expires l
  | None => false
  end.

(** [cache[key]] at timer reading [now]; [None] is [KeyError]. *)
Definition getitem (c : t) (k : string) (now : Z) : option Json :=
  match find (has_key k) (links c) with
  | Some l => if now <? expires l then Some (value l) else None
  | None => None
  end.

(** [cache.expire(time)]: drop the expired entries at the old end. *)
Fixpoint expire (time : Z) (ls : list link) : list link :=
  match ls with
  | [] => []
  | l :: ls' => if negb (time <? expires l) then expire time ls' else ls
  end.

(** [cache[key] = value] at timer reading [time]: expired entries go,
    the oldest entries make room for a new key, and the entry is put
    at the young end with a fresh expiry. *)
Definition setitem (c : t) (k : string) (v : Json) (time : Z) : t :=
  let ls := expire time (links c) in
  let ls :=
    if existsb (has_key k) ls then ls
    else skipn (List.length ls + 1 - maxsize c) ls in
  let ls := filter (fun l => negb (has_key k l)) ls in
  mk (maxsize c) (ttl c) (ls ++ [mkLink k v (time + ttl c)]).

(** The stored entry of a key, expired or not. *)
Definition stored (c : t) (k : string) : option Json :=
  option_map value (find (has_key k) (links c)).

End TTLCache.

(** [_jwks_cache = TTLCache(maxsize=10, ttl=3600)], empty. *)
Definition _jwks_cache : TTLCache.t := TTLCache.mk 10 3600 [].

(** What [client.get], [raise_for_status] and [response.json] give. *)
Inductive Response : Type :=
| Fetched (jwks : Json)
| Failed_HTTPError
| Failed_other (e : Exception).

(** [len(jwks.get('keys', []))], evaluated for the log line. *)
Definition count_keys (jwks : Json) : Result unit :=
  match jwks with
  | JDict d =>
      match dict_get d "keys" with
      | JNull => if existsb (fun kv => String.eqb (fst kv) "keys") d
                 then Raise TypeError else Return tt
      | JBool _ => Raise TypeError
      | JInt _ => Raise TypeError
      | _ => Return tt
      end
  | _ => Raise AttributeError
  end.

(** [JWKSService.fetch_jwks].  [now] is the timer reading when the cache
    is consulted first, [later] the reading once the remote call has
    answered with [response]. *)
Definition fetch_jwks (jwks_url : string) (force_refresh : bool)
           (now later : Z) (response : Response) (cache : TTLCache.t)
  : Result Json * TTLCache.t :=
  let cache_key := jwks_url in
  if negb force_refresh && TTLCache.contains cache cache_key now
  then match TTLCache.getitem cache cache_key now with
       | Some jwks => (Return jwks, cache)
       | None => (Raise KeyError, cache)
       end
  else
    match response with
    | Fetched jwks =>
        let cache := TTLCache.setitem cache cache_key jwks later in
        (_ <- count_keys jwks ;; Return jwks, cache)
    | Failed_HTTPError =>
        if TTLCache.contains cache cache_key later
        then match TTLCache.getitem cache cache_key later with
             | Some jwks => (Return jwks, cache)
             | None => (Raise KeyError, cache)
             end
        else (Raise HTTPError, cache)
    | Failed_other e => (Raise e, cache)
    end.

(* ================================================================== *)
(** ** Listing (src/api/routes/tasks.py, [list_tasks]) *)
(* ================================================================== *)

(** [ORDER BY created_at DESC], as an insertion into a sorted list; rows
    of equal [created_at] come in the order of the table. *)
Fixpoint insert_desc (r : Row.t) (l : list Row.t) : list Row.t :=
  match l with
  | [] => [r]
  | x :: l' =>
      if Row.created_at x <=? Row.created_at r then r :: l
      else x :: insert_desc r l'
  end.

Definition order_by_created_at_desc (l : list Row.t) : list Row.t :=
  fold_right insert_desc [] l.

(** [select(Task).where(Task.user_id == user_id)
       .order_by(Task.created_at.desc())] *)
Definition where_user_id (user_id : string) (r : Row.t) : bool :=
  String.eqb (Row.user_id r) user_id.

Definition execute_select_all (user_id : string) : Session (list Row.t) :=
  fun db =>
    (Return (order_by_created_at_desc
               (filter (where_user_id user_id) (Db.rows db))),
     db).

(** [[TaskResponse.model_validate(task) for task in tasks]] *)
Fixpoint validate_all (tasks : list Task.t) : Result (list TaskResponse.t) :=
  match tasks with
  | [] => Return []
  | task :: tasks' =>
      r <- TaskResponse.model_validate task ;;
      rs <- validate_all tasks' ;;
      Return (r :: rs)
  end.

Definition list_tasks (user_id : string) (current_user_id : string)
  : Session (list TaskResponse.t) :=
  lift (verify_user_access current_user_id user_id) ;;;
  try_except
    (result <~ execute_select_all user_id ;;
     let tasks := map load result in
     lift (validate_all tasks))
    (fun e => raise internal_server_error).

(* ================================================================== *)
(** ** The bearer header and the current user
       (src/api/middleware/auth.py, src/api/dependencies.py) *)
(* ================================================================== *)

(** [str.split()]: the maximal runs of characters that are not
    whitespace, in order. *)
Fixpoint split (s : string) : list string :=
  match s with
  | EmptyString => []
  | String c s' =>
      if Py.isspace c then split s'
      else
        match s' with
        | EmptyString => [String c EmptyString]
        | String d _ =>
            if Py.isspace d then String c EmptyString :: split s'
            else
              match split s' with
              | w :: ws => String c w :: ws
              | [] => [String c EmptyString]
              end
        end
  end.

(** [authorization] is [None] when the request has no such header. *)
Definition extract_token_from_header (authorization : option string)
  : Result string :=
  match authorization with
  | None => Raise not_authenticated
  | Some authorization =>
      if negb (Py.truthy authorization) then Raise not_authenticated
      else
        let parts := split authorization in
        match parts with
        | [scheme; token] =>
            if negb (String.eqb (Py.lower scheme) "bearer")
            then Raise not_authenticated
            else Return token
        | _ => Raise not_authenticated
        end
  end.

Section CurrentUser.

Variable jwt_decode : string -> JwtOutcome.

(** [get_current_user], the dependency of every task route. *)
Definition get_current_user (authorization : option string) : Result Json :=
  token <- extract_token_from_header authorization ;;
  user_id <- get_user_id_from_token jwt_decode token ;;
  Return user_id.

End CurrentUser.

(* ================================================================== *)
(** ** Looking up keys (src/services/jwks.py) *)
(* ================================================================== *)

(** [for key in keys]: the items a value gives when it is iterated. *)
Definition iterate (v : Json) : Result (list Json) :=
  match v with
  | JList l => Return l
  | JStr s => Return (map (fun c => JStr (String c EmptyString))
                          (list_ascii_of_string s))
  | JDict d => Return (map (fun kv => JStr (fst kv)) d)
  | _ => Raise TypeError
  end.

(** [jwks.get("keys", [])] *)
Definition get_keys (jwks : Json) : Result Json :=
  match jwks with
  | JDict d =>
      if existsb (fun kv => String.eqb (fst kv) "keys") d
      then Return (dict_get d "keys")
      else Return (JList [])
  | _ => Raise AttributeError
  end.

(** [key.get("kid") == kid] *)
Definition has_kid (kid : string) (key : Json) : Result bool :=
  match key with
  | JDict d =>
      Return (match dict_get d "kid" with
              | JStr s => String.eqb s kid
              | _ => false
              end)
  | _ => Raise AttributeError
  end.

(** The loop [for key in keys: if key.get("kid") == kid: return key];
    [None] when it ends without returning. *)
Fixpoint first_with_kid (kid : string) (keys : list Json)
  : Result (option Json) :=
  match keys with
  | [] => Return None
  | key :: keys' =>
      b <- has_kid kid key ;;
      if b then Return (Some key) else first_with_kid kid keys'
  end.

Definition search (kid : string) (jwks : Json) : Result (option Json) :=
  keys <- get_keys jwks ;;
  keys <- iterate keys ;;
  first_with_kid kid keys.

(** [JWKSService.get_key_by_kid].  The first fetch consults the cache at
    [now1] and, if it goes to the remote end, is answered by [response1]
    at [later1]; the forced refresh, when there is one, starts at [now2]
    and is answered by [response2] at [later2]. *)
Definition get_key_by_kid (jwks_url kid : string)
           (now1 later1 : Z) (response1 : Response)
           (now2 later2 : Z) (response2 : Response)
           (cache : TTLCache.t) : Result (option Json) * TTLCache.t :=
  match fetch_jwks jwks_url false now1 later1 response1 cache with
  | (Raise e, cache) => (Raise e, cache)
  | (Return jwks, cache) =>
      match search kid jwks with
      | Raise e => (Raise e, cache)
      | Return (Some key) => (Return (Some key), cache)
      | Return None =>
          match fetch_jwks jwks_url true now2 later2 response2 cache with
          | (Raise e, cache) => (Raise e, cache)
          | (Return jwks, cache) => (search kid jwks, cache)
          end
      end
  end.

(** [JWKSService.get_all_keys] *)
Definition get_all_keys (jwks_url : string) (now later : Z)
           (response : Response) (cache : TTLCache.t)
  : Result Json * TTLCache.t :=
  match fetch_jwks jwks_url false now later response cache with
  | (Raise e, cache) => (Raise e, cache)
  | (Return jwks, cache) => (get_keys jwks, cache)
  end.

(* ================================================================== *)
(** ** Notions used to state the properties *)
(* ================================================================== *)

(** [t] is [v] without its leading and trailing whitespace. *)
Definition trimmed_of (v t : string) : Prop :=
  exists l r : string,
    v = (l ++ t ++ r)%string
    /\ Py.all_space l = true /\ Py.all_space r = true
    /\ (forall c, Py.first_char t = Some c -> Py.isspace c = false)
    /\ (forall c, Py.last_char t = Some c -> Py.isspace c = false).

(** The upper-case form of a lower-case letter [a]..[z]. *)
Definition upper_of (d : ascii) : ascii :=
  let n := nat_of_ascii d in
  if ((97 <=? n) && (n <=? 122))%nat then ascii_of_nat (n - 32) else d.

(** [c] is the letter [d] in either case. *)
Definition same_letter (c d : ascii) : bool :=
  Ascii.eqb c d || Ascii.eqb c (upper_of d).

(** [s] is the word [w] up to the case of its letters. *)
Fixpoint matches_ignoring_case (s w : string) : bool :=
  match s, w with
  | EmptyString, EmptyString => true
  | String c s', String d w' => same_letter c d && matches_ignoring_case s' w'
  | _, _ => false
  end.

(** The priority level a string names, if any. *)
Definition priority_level (v : string) : option string :=
  find (matches_ignoring_case v) allowed.

(** A title the schemas accept. *)
Definition acceptable_title (v : string) : Prop :=
  v <> "" /\ Py.all_space v = false /\ (Py.len v <= 500)%nat.

(** The response that shows a row. *)
Definition response_of (r : Row.t) : TaskResponse.t :=
  TaskResponse.mk (Row.id r) (Row.user_id r) (Row.title r) (Row.description r)
                  (Row.completed r) (Row.priority r) (Row.due_date r)
                  (Row.created_at r) (Row.updated_at r).

(** The table with the row of [row]'s primary key replaced by [row]. *)
Definition replace_row (row : Row.t) (db : Db.t) : Db.t :=
  Db.mk (map (fun r => if has_id (Row.id row) r then row else r) (Db.rows db))
        (Db.next_id db).

(** The table without the row of primary key [i]. *)
Definition remove_row (i : Z) (db : Db.t) : Db.t :=
  Db.mk (filter (fun r => negb (has_id i r)) (Db.rows db)) (Db.next_id db).

(** The stored row of a primary key. *)
Definition stored_row (db : Db.t) (i : Z) : option Row.t :=
  find (has_id i) (Db.rows db).


(** The row a full replace writes over [r]. *)
Definition replaced_row (r : Row.t) (d : TaskUpdate.t) (now : datetime) : Row.t :=
  Row.mk (Row.id r) (Row.user_id r) (TaskUpdate.title d)
         (TaskUpdate.description d) (TaskUpdate.completed d)
         (TaskUpdate.priority d) (TaskUpdate.due_date d)
         (Row.created_at r) now.

(** What a body asks of one field of a row: an absent key keeps the old
    value, a value replaces it. *)
Definition patched {A} (b : Supplied A) (new : A -> A) (old : A) : A :=
  match b with Given v => new v | _ => old end.

Definition patched_opt {A} (b : Supplied A) (old : option A) : option A :=
  match b with Absent => old | Null => None | Given v => Some v end.

(** The row a partial update with body [b] writes over [r]. *)
Definition patched_row (r : Row.t) (b : Body.t) (now : datetime) : Row.t :=
  Row.mk (Row.id r) (Row.user_id r)
         (patched (Body.title b) Py.strip (Row.title r))
         (patched_opt (Body.description b) (Row.description r))
         (patched (Body.completed b) (fun v => v) (Row.completed r))
         (patched (Body.priority b) Py.lower (Row.priority r))
         (patched_opt (Body.due_date b) (Row.due_date r))
         (Row.created_at r) now.

(** A body that sends [null] for a column declared [nullable=False]. *)
Definition nulls_a_required_column (b : Body.t) : bool :=
  match Body.title b, Body.completed b, Body.priority b with
  | Null, _, _ => true
  | _, Null, _ => true
  | _, _, Null => true
  | _, _, _ => false
  end.




(** Sample data: a table with one task of user [u1], and two tokens. *)
Definition sample_row : Row.t :=
  Row.mk 1 "u1" "Buy milk" None false "medium" None 1000 1001.

Definition sample_db : Db.t := Db.mk [sample_row] 2.

Definition sample_claims (sub : string) : list (string * Json) :=
  [("sub", JStr sub); ("exp", JInt 1700003600); ("iat", JInt 1700000000)].

Definition sample_decode (sub : string) (token : string) : JwtOutcome :=
  Decoded (sample_claims sub).

(** A request to the task API, with the readings of the clock its
    handler takes. *)
Inductive Request : Type :=
| POST (user_id : string) (body : Body.t) (created_now updated_now : datetime)
| GET_all (user_id : string)
| GET (user_id : string) (task_id : Z)
| PUT (user_id : string) (task_id : Z) (body : Body.t) (now : datetime)
| PATCH (user_id : string) (task_id : Z) (body : Body.t) (now : datetime)
| DELETE (user_id : string) (task_id : Z).

(** The table after a request of the authenticated subject
    [current_user_id] has been served. *)
Definition serve (req : Request) (current_user_id : string) (db : Db.t) : Db.t :=
  match req with
  | POST user_id body created_now updated_now =>
      snd (post_route user_id body current_user_id created_now updated_now db)
  | GET_all user_id => snd (list_tasks user_id current_user_id db)
  | GET user_id task_id => snd (get_task user_id task_id current_user_id db)
  | PUT user_id task_id body now =>
      snd (put_route user_id task_id body current_user_id now db)
  | PATCH user_id task_id body now =>
      snd (patch_route user_id task_id body current_user_id now db)
  | DELETE user_id task_id =>
      snd (delete_task user_id task_id current_user_id db)
  end.

(** What the data model says of a stored task: the title is not empty
    and carries no leading or trailing whitespace, the priority is one
    of the three levels. *)
Definition task_invariant (r : Row.t) : Prop :=
  Row.title r <> "" /\ Py.strip (Row.title r) = Row.title r
  /\ In (Row.priority r) allowed.

(** The task a request addresses by its identifier, if it does. *)
Definition target (req : Request) : option Z :=
  match req with
  | POST _ _ _ _ => None
  | GET_all _ => None
  | GET _ task_id => Some task_id
  | PUT _ task_id _ _ => Some task_id
  | PATCH _ task_id _ _ => Some task_id
  | DELETE _ task_id => Some task_id
  end.

(** What a request of subject [B] that addresses [target] may do to the
    table: nothing, add a row of [B] under the next identifier, rewrite
    the addressed row of [B] keeping its identifier, owner and creation
    time, or remove the addressed row of [B]. *)
Inductive Effect (B : string) (target : option Z) (db : Db.t) : Db.t -> Prop :=
| effect_none : Effect B target db db
| effect_insert (row : Row.t) :
    Row.id row = Db.next_id db -> Row.user_id row = B ->
    row_fits row = true -> task_invariant row ->
    Effect B target db (Db.mk (Db.rows db ++ [row]) (Db.next_id db + 1))
| effect_replace (old row : Row.t) :
    In old (Db.rows db) -> Row.user_id old = B ->
    target = Some (Row.id old) ->
    Row.id row = Row.id old -> Row.user_id row = Row.user_id old ->
    Row.created_at row = Row.created_at old ->
    row_fits row = true -> (task_invariant old -> task_invariant row) ->
    Effect B target db (replace_row row db)
| effect_delete (old : Row.t) :
    In old (Db.rows db) -> Row.user_id old = B ->
    target = Some (Row.id old) ->
    Effect B target db (remove_row (Row.id old) db).

(** The table after a history of requests, each with the subject that
    sent it, oldest first. *)
Definition serve_all (history : list (Request * string)) (db : Db.t) : Db.t :=
  fold_left (fun db rq => serve (fst rq) (snd rq) db) history db.

(** A string without whitespace that is not empty: one item of
    [str.split()]. *)
Fixpoint no_space (s : string) : bool :=
  match s with
  | EmptyString => true
  | String c s' => negb (Py.isspace c) && no_space s'
  end.

Definition word (s : string) : Prop := s <> "" /\ no_space s = true.

(** The cache within its bound, one entry a key, with the parameters of
    [_jwks_cache]. *)
Definition cache_ok (c : TTLCache.t) : Prop :=
  TTLCache.maxsize c = 10%nat /\ TTLCache.ttl c = 3600
  /\ (List.length (TTLCache.links c) <= 10)%nat
  /\ NoDup (map TTLCache.key (TTLCache.links c)).



(** The JSON body a client builds from a task it was sent, to send the
    task back in a full replace. *)
Definition body_of (t : TaskResponse.t) : Body.t :=
  Body.mk (Given (TaskResponse.title t))
          (match TaskResponse.description t with
           | Some v => Given v
           | None => Null
           end)
          (Given (TaskResponse.completed t))
          (Given (TaskResponse.priority t))
          (match TaskResponse.due_date t with
           | Some v => Given v
           | None => Null
           end).

(** Sample data: the key-set URL of the settings, key sets, and the
    cache that holds the key set with the key [k1], fetched at time 0. *)
Definition sample_url : string := "http://localhost:3000/api/auth/jwks".

Definition sample_key (kid : string) : Json :=
  JDict [("kty", JStr "RSA"); ("kid", JStr kid); ("alg", JStr "RS256")].

Definition sample_jwks (kids : list string) : Json :=
  JDict [("keys", JList (map sample_key kids))].

Definition sample_cache : TTLCache.t :=
  TTLCache.setitem _jwks_cache sample_url (sample_jwks ["k1"]) 0.

(** Unfolds the session combinators of a handler. *)
Ltac run_session :=
  unfold sbind, lift, ret, raise, try_except, execute_select, rollback.

(* ================================================================== *)
(** ** Strings: stripping and lower-casing *)
(* ================================================================== *)

Section Strings.

Lemma lstrip_all_space s :
  Py.all_space (Py.lstrip s) = Py.all_space s.
Proof.
  induction s as [|c s IH]; simpl; [reflexivity|].
  destruct (Py.isspace c) eqn:E; simpl; [exact IH | now rewrite E].
Qed.

Lemma rstrip_empty_iff s :
  Py.rstrip s = "" <-> Py.all_space s = true.
Proof.
  induction s as [|c s IH]; simpl; [tauto|].
  destruct (Py.rstrip s) eqn:R.
  - destruct (Py.isspace c); simpl.
    + split; intros _; [now apply IH | reflexivity].
    + split; discriminate.
  - split; [discriminate|].
    intros H. apply andb_true_iff in H as [_ H].
    apply IH in H. discriminate.
Qed.

Lemma strip_empty_iff s :
  Py.strip s = "" <-> Py.all_space s = true.
Proof.
  unfold Py.strip. rewrite rstrip_empty_iff. now rewrite lstrip_all_space.
Qed.

Lemma all_space_empty_or s :
  s = "" -> Py.all_space s = true.
Proof. now intros ->. Qed.

Lemma lstrip_split s :
  exists l, s = (l ++ Py.lstrip s)%string /\ Py.all_space l = true.
Proof.
  induction s as [|c s (l & E & A)]; simpl.
  - now exists "".
  - destruct (Py.isspace c) eqn:C.
    + exists (String c l). simpl. rewrite C, A. now rewrite <- E.
    + now exists "".
Qed.

Lemma rstrip_split s :
  exists r, s = (Py.rstrip s ++ r)%string /\ Py.all_space r = true.
Proof.
  induction s as [|c s (r & E & A)]; simpl.
  - now exists "".
  - destruct (Py.rstrip s) eqn:R.
    + simpl in E. subst r. destruct (Py.isspace c) eqn:C.
      * exists (String c s). simpl. now rewrite C, A.
      * exists s. now simpl.
    + exists r. simpl. split; [|exact A]. f_equal. exact E.
Qed.

Lemma lstrip_first s c :
  Py.first_char (Py.lstrip s) = Some c -> Py.isspace c = false.
Proof.
  induction s as [|d s IH]; simpl; [discriminate|].
  destruct (Py.isspace d) eqn:D; [exact IH|].
  simpl. now intros [= <-].
Qed.

Lemma rstrip_first s c :
  Py.first_char (Py.rstrip s) = Some c -> Py.first_char s = Some c.
Proof.
  destruct s as [|d s]; simpl; [discriminate|].
  destruct (Py.rstrip s); [destruct (Py.isspace d)|]; simpl;
    try discriminate; auto.
Qed.

Lemma rstrip_last s c :
  Py.last_char (Py.rstrip s) = Some c -> Py.isspace c = false.
Proof.
  induction s as [|d s IH]; simpl; [discriminate|].
  destruct (Py.rstrip s) as [|e r] eqn:R.
  - destruct (Py.isspace d) eqn:D; simpl; [discriminate|].
    now intros [= <-].
  - exact IH.
Qed.

Lemma strip_trimmed s : trimmed_of s (Py.strip s).
Proof.
  destruct (lstrip_split s) as (l & El & Al).
  destruct (rstrip_split (Py.lstrip s)) as (r & Er & Ar).
  exists l, r. unfold Py.strip. repeat split; auto.
  - now rewrite <- Er.
  - intros c H. apply rstrip_first in H. now apply lstrip_first in H.
  - intros c. apply rstrip_last.
Qed.

Lemma length_append (a b : string) :
  String.length (a ++ b) = (String.length a + String.length b)%nat.
Proof. induction a; simpl; [reflexivity | now rewrite IHa]. Qed.

Lemma trimmed_length v t :
  trimmed_of v t -> (Py.len t <= Py.len v)%nat.
Proof.
  intros (l & r & -> & _). unfold Py.len.
  rewrite !length_append. lia.
Qed.

Lemma strip_length s : (Py.len (Py.strip s) <= Py.len s)%nat.
Proof. apply trimmed_length, strip_trimmed. Qed.

Lemma truthy_false_iff s : Py.truthy s = false <-> s = "".
Proof. destruct s; simpl; split; congruence. Qed.

Lemma truthy_strip s :
  Py.truthy (Py.strip s) = negb (Py.all_space s).
Proof.
  destruct (Py.all_space s) eqn:A.
  - apply strip_empty_iff in A. now rewrite A.
  - destruct (Py.strip s) eqn:E; [|reflexivity].
    apply strip_empty_iff in E. congruence.
Qed.

(** Lower-casing gives one of the letters of the three priority words
    exactly from that letter in either case. *)
Lemma lower_char_letter c d :
  In d (list_ascii_of_string "lowmediuhg") ->
  Ascii.eqb (Py.lower_char c) d = same_letter c d.
Proof.
  intros H. simpl in H.
  repeat (destruct H as [<-|H];
          [destruct c as [[] [] [] [] [] [] [] []]; reflexivity|]).
  contradiction.
Qed.

Lemma lower_matches w :
  (forall d, In d (list_ascii_of_string w) ->
             In d (list_ascii_of_string "lowmediuhg")) ->
  forall s, String.eqb (Py.lower s) w = matches_ignoring_case s w.
Proof.
  induction w as [|d w IH]; intros Hw s.
  - destruct s; reflexivity.
  - destruct s as [|c s]; [reflexivity|]. simpl.
    rewrite lower_char_letter by (apply Hw; now left).
    destruct (same_letter c d); [|reflexivity].
    apply IH. intros e He. apply Hw. now right.
Qed.

Lemma lower_in_allowed s :
  Py.contains allowed (Py.lower s)
  = match priority_level s with Some _ => true | None => false end.
Proof.
  unfold Py.contains, priority_level, allowed. simpl.
  rewrite !lower_matches
    by (intros d H; simpl in *; intuition (subst; auto 12)).
  repeat (match goal with
          | |- context [matches_ignoring_case s ?w] =>
              destruct (matches_ignoring_case s w); simpl; try reflexivity
          end).
Qed.

Lemma lower_is_level s w :
  priority_level s = Some w -> Py.lower s = w.
Proof.
  unfold priority_level. intros H.
  assert (In w allowed /\ matches_ignoring_case s w = true) as [Hin Hm]
      by (apply find_some in H; exact H).
  rewrite <- lower_matches in Hm.
  - now apply String.eqb_eq.
  - intros d Hd. unfold allowed in Hin. simpl in Hin.
    destruct Hin as [<-|[<-|[<-|[]]]]; simpl in *; intuition (subst; auto 12).
Qed.

Lemma priority_level_allowed s w :
  priority_level s = Some w -> In w allowed.
Proof. intros H. now apply find_some in H. Qed.

Lemma priority_level_lower w :
  In w allowed -> priority_level w = Some w.
Proof.
  unfold allowed. simpl. intros [<-|[<-|[<-|[]]]]; reflexivity.
Qed.

End Strings.

(* ================================================================== *)
(** ** The schemas' validators *)
(* ================================================================== *)

Section Validators.

Lemma len_zero_iff v : (Py.len v <? 1)%nat = true <-> v = "".
Proof.
  destruct v; simpl; split; intros H; try reflexivity; discriminate.
Qed.

(** The title rule, spelled out. *)
Lemma create_title_given v :
  TaskCreate.title_field (Given v) =
  if (Py.len v <? 1)%nat then inl (mkError "title" string_too_short)
  else if (500 <? Py.len v)%nat then inl (mkError "title" string_too_long)
  else if Py.all_space v then inl (mkError "title" (value_error title_message))
  else inr (Py.strip v).
Proof.
  unfold TaskCreate.title_field, check_length.
  destruct (Py.len v <? 1)%nat eqn:E1; [reflexivity|].
  destruct (500 <? Py.len v)%nat; [reflexivity|].
  simpl. unfold TaskCreate.title_not_empty.
  rewrite truthy_strip.
  assert (Py.truthy v = true) as ->.
  { destruct v; [discriminate E1 | reflexivity]. }
  simpl. now destruct (Py.all_space v).
Qed.

Lemma update_title_is_create b :
  TaskUpdate.title_field b = TaskCreate.title_field b.
Proof. reflexivity. Qed.

Lemma partial_title_given v :
  TaskPartialUpdate.title_field (Given v) =
  match TaskCreate.title_field (Given v) with
  | inl e => inl e
  | inr t => inr (Some t)
  end.
Proof.
  rewrite create_title_given.
  unfold TaskPartialUpdate.title_field, check_length.
  destruct (Py.len v <? 1)%nat eqn:E1; [reflexivity|].
  destruct (500 <? Py.len v)%nat; [reflexivity|].
  simpl. unfold TaskPartialUpdate.title_not_empty.
  rewrite truthy_strip.
  assert (Py.truthy v = true) as ->.
  { destruct v; [discriminate E1 | reflexivity]. }
  simpl. now destruct (Py.all_space v).
Qed.

Lemma title_accepted v :
  acceptable_title v -> TaskCreate.title_field (Given v) = inr (Py.strip v).
Proof.
  intros (Hne & Hsp & Hlen). rewrite create_title_given.
  destruct (Py.len v <? 1)%nat eqn:E1.
  - apply len_zero_iff in E1. contradiction.
  - destruct (Nat.ltb_spec 500 (Py.len v)); [lia|]. now rewrite Hsp.
Qed.


(** A title the rule accepts is acceptable, and the stored value is
    its stripped form. *)
Lemma title_accepted_inv v t :
  TaskCreate.title_field (Given v) = inr t ->
  acceptable_title v /\ t = Py.strip v.
Proof.
  rewrite create_title_given.
  destruct (Py.len v <? 1)%nat eqn:E1; [discriminate|].
  destruct (Nat.ltb_spec 500 (Py.len v)); [discriminate|].
  destruct (Py.all_space v) eqn:A; [discriminate|].
  intros [= <-]. repeat split; auto.
  intros ->. discriminate E1.
Qed.

(** The priority rule, through [priority_level]. *)
Lemma update_priority_given v :
  TaskUpdate.validate_priority v =
  match priority_level v with
  | Some w => inr w
  | None => inl (mkError "priority" (value_error priority_message))
  end.
Proof.
  unfold TaskUpdate.validate_priority. rewrite lower_in_allowed.
  destruct (priority_level v) eqn:E; simpl; [|reflexivity].
  now rewrite (lower_is_level _ E).
Qed.

Lemma create_priority_given v :
  TaskCreate.priority_field (Given v) =
  match priority_level v with
  | Some w => inr (Some w)
  | None => inl (mkError "priority" (value_error priority_message))
  end.
Proof.
  unfold TaskCreate.priority_field, TaskCreate.validate_priority.
  rewrite lower_in_allowed.
  destruct (priority_level v) eqn:E; simpl; [|reflexivity].
  now rewrite (lower_is_level _ E).
Qed.

Lemma partial_priority_given v :
  TaskPartialUpdate.priority_field (Given v) =
  match priority_level v with
  | Some w => inr (Some w)
  | None => inl (mkError "priority" (value_error priority_message))
  end.
Proof.
  unfold TaskPartialUpdate.priority_field, TaskPartialUpdate.validate_priority.
  rewrite lower_in_allowed.
  destruct (priority_level v) eqn:E; simpl; [|reflexivity].
  now rewrite (lower_is_level _ E).
Qed.

Lemma allowed_fits w : In w allowed -> fits 10 w = true.
Proof.
  unfold allowed. simpl. intros [<-|[<-|[<-|[]]]]; reflexivity.
Qed.

Lemma allowed_truthy w : In w allowed -> Py.truthy w = true.
Proof.
  unfold allowed. simpl. intros [<-|[<-|[<-|[]]]]; reflexivity.
Qed.

Lemma description_fits b de :
  description_field b = inr de -> fits_opt 5000 de = true.
Proof.
  destruct b as [| |v]; simpl.
  - now intros [= <-].
  - now intros [= <-].
  - destruct (Nat.ltb_spec 5000 (Py.len v)); [discriminate|].
    intros [= <-]. simpl. unfold fits. now apply Nat.leb_le.
Qed.

Lemma strip_fits v : (Py.len v <= 500)%nat -> fits 500 (Py.strip v) = true.
Proof.
  intros H. unfold fits. apply Nat.leb_le.
  pose proof (strip_length v). lia.
Qed.

(** Validation either returns an object built from the fields or raises
    the errors of the fields, of which there is at least one. *)
Lemma create_validate_fields b :
  match TaskCreate.title_field (Body.title b),
        description_field (Body.description b),
        TaskCreate.priority_field (Body.priority b),
        due_date_field (Body.due_date b) with
  | inr ti, inr de, inr pr, inr du =>
      TaskCreate.model_validate b = Return (TaskCreate.mk ti de pr du)
  | ft, fd, fp, fu =>
      exists e errs,
      (errors_of ft ++ errors_of fd ++ errors_of fp ++ errors_of fu
       = e :: errs)%list
      /\ TaskCreate.model_validate b = Raise (RequestValidationError (e :: errs))
  end.
Proof.
  unfold TaskCreate.model_validate.
  destruct (TaskCreate.title_field _), (description_field _),
    (TaskCreate.priority_field _), (due_date_field _); simpl; eauto.
Qed.

Lemma update_validate_fields b :
  match TaskUpdate.title_field (Body.title b),
        description_field (Body.description b),
        TaskUpdate.completed_field (Body.completed b),
        TaskUpdate.priority_field (Body.priority b),
        due_date_field (Body.due_date b) with
  | inr ti, inr de, inr co, inr pr, inr du =>
      TaskUpdate.model_validate b = Return (TaskUpdate.mk ti de co pr du)
  | ft, fd, fc, fp, fu =>
      exists e errs,
      (errors_of ft ++ errors_of fd ++ errors_of fc ++ errors_of fp
         ++ errors_of fu = e :: errs)%list
      /\ TaskUpdate.model_validate b = Raise (RequestValidationError (e :: errs))
  end.
Proof.
  unfold TaskUpdate.model_validate.
  destruct (TaskUpdate.title_field _), (description_field _),
    (TaskUpdate.completed_field _), (TaskUpdate.priority_field _),
    (due_date_field _); simpl; eauto.
Qed.

Lemma partial_validate_fields b :
  match TaskPartialUpdate.title_field (Body.title b),
        description_field (Body.description b),
        TaskPartialUpdate.completed_field (Body.completed b),
        TaskPartialUpdate.priority_field (Body.priority b),
        due_date_field (Body.due_date b) with
  | inr ti, inr de, inr co, inr pr, inr du =>
      TaskPartialUpdate.model_validate b
      = Return (TaskPartialUpdate.mk ti de co pr du
                                     (TaskPartialUpdate.fields_set_of b))
  | ft, fd, fc, fp, fu =>
      exists e errs,
      (errors_of ft ++ errors_of fd ++ errors_of fc ++ errors_of fp
         ++ errors_of fu = e :: errs)%list
      /\ TaskPartialUpdate.model_validate b
         = Raise (RequestValidationError (e :: errs))
  end.
Proof.
  unfold TaskPartialUpdate.model_validate.
  destruct (TaskPartialUpdate.title_field _), (description_field _),
    (TaskPartialUpdate.completed_field _), (TaskPartialUpdate.priority_field _),
    (due_date_field _); simpl; eauto.
Qed.

End Validators.

(* ================================================================== *)
(** ** The datastore: queries and writes *)
(* ================================================================== *)

Section Datastore.

Lemma row_eta r :
  Row.mk (Row.id r) (Row.user_id r) (Row.title r) (Row.description r)
         (Row.completed r) (Row.priority r) (Row.due_date r)
         (Row.created_at r) (Row.updated_at r) = r.
Proof. now destruct r. Qed.

Lemma check_constraints_load r :
  row_fits r = true -> check_constraints (load r) = Return r.
Proof.
  intros H. unfold check_constraints, load. simpl.
  unfold row_fits in H. rewrite H. now rewrite row_eta.
Qed.

Lemma model_validate_load r :
  TaskResponse.model_validate (load r) = Return (response_of r).
Proof. reflexivity. Qed.

Lemma select_no_id rows i u :
  ~ In i (map Row.id rows) ->
  filter (where_id_and_user_id i u) rows = [].
Proof.
  induction rows as [|a rows IH]; simpl; intros H; [reflexivity|].
  unfold where_id_and_user_id at 1.
  destruct (Z.eqb_spec (Row.id a) i) as [E|E]; [tauto|].
  simpl. apply IH. tauto.
Qed.

Lemma select_found rows r :
  NoDup (map Row.id rows) -> In r rows ->
  filter (where_id_and_user_id (Row.id r) (Row.user_id r)) rows = [r].
Proof.
  induction rows as [|a rows IH]; simpl; intros ND Hin; [contradiction|].
  inversion ND as [|? ? Hnotin ND']; subst.
  destruct Hin as [->|Hin].
  - unfold where_id_and_user_id at 1.
    rewrite Z.eqb_refl, String.eqb_refl. simpl.
    now rewrite select_no_id.
  - unfold where_id_and_user_id at 1.
    destruct (Z.eqb_spec (Row.id a) (Row.id r)) as [E|E].
    + exfalso. apply Hnotin. rewrite E. now apply in_map.
    + simpl. now apply IH.
Qed.


Lemma find_replaced rows row :
  In (Row.id row) (map Row.id rows) ->
  find (has_id (Row.id row))
       (map (fun r => if has_id (Row.id row) r then row else r) rows)
  = Some row.
Proof.
  induction rows as [|a rows IH]; simpl; intros H; [contradiction|].
  destruct (has_id (Row.id row) a) eqn:E.
  - unfold has_id. now rewrite Z.eqb_refl.
  - rewrite E. apply IH. destruct H as [H|H]; [|exact H].
    unfold has_id in E. rewrite H, Z.eqb_refl in E. discriminate.
Qed.


Lemma below_sequence_fresh db :
  db_wf db -> ~ In (Db.next_id db) (map Row.id (Db.rows db)).
Proof.
  intros (_ & Hlt & _) Hin. apply in_map_iff in Hin as (r & E & Hr).
  rewrite Forall_forall in Hlt. specialize (Hlt r Hr). lia.
Qed.

Lemma wf_row_fits db r : db_wf db -> In r (Db.rows db) -> row_fits r = true.
Proof.
  intros (_ & _ & H) Hr. rewrite Forall_forall in H. now apply H.
Qed.

Lemma stored_row_of db r :
  db_wf db -> In r (Db.rows db) -> stored_row db (Row.id r) = Some r.
Proof.
  unfold stored_row. intros (ND & _) Hr.
  induction (Db.rows db) as [|a rows IH]; simpl in *; [contradiction|].
  inversion ND as [|? ? Hnotin ND']; subst.
  unfold has_id at 1.
  destruct Hr as [->|Hr]; [now rewrite Z.eqb_refl|].
  destruct (Z.eqb_spec (Row.id a) (Row.id r)) as [E|E]; [|now apply IH].
  exfalso. apply Hnotin. rewrite E. now apply in_map.
Qed.

(** The invariant holds of the empty table and every write keeps it. *)
Lemma db_wf_empty n : db_wf (Db.mk [] n).
Proof. repeat split; constructor. Qed.

Lemma db_wf_append db row :
  db_wf db -> Row.id row = Db.next_id db -> row_fits row = true ->
  db_wf (Db.mk (Db.rows db ++ [row]) (Db.next_id db + 1)).
Proof.
  intros Hwf Hid Hfit. pose proof (below_sequence_fresh Hwf) as Hfresh.
  destruct Hwf as (ND & Hlt & Hfits). repeat split; simpl.
  - rewrite map_app. apply NoDup_app; [exact ND | repeat constructor; auto |].
    intros a Ha [<-|[]]. rewrite Hid in Ha. contradiction.
  - apply Forall_app. split.
    + eapply Forall_impl; [|exact Hlt]. simpl. intros. lia.
    + repeat constructor. lia.
  - apply Forall_app. split; [exact Hfits | now repeat constructor].
Qed.

Lemma replace_keeps_ids rows row :
  map Row.id (map (fun r => if has_id (Row.id row) r then row else r) rows)
  = map Row.id rows.
Proof.
  induction rows as [|a rows IH]; simpl; [reflexivity|].
  rewrite IH. f_equal. unfold has_id.
  destruct (Z.eqb_spec (Row.id a) (Row.id row)); congruence.
Qed.

Lemma db_wf_replace db row :
  db_wf db -> row_fits row = true -> db_wf (replace_row row db).
Proof.
  intros (ND & Hlt & Hfits) Hfit. unfold replace_row. repeat split; simpl.
  - now rewrite replace_keeps_ids.
  - apply (Forall_map Row.id (fun i => i < Db.next_id db)).
    rewrite replace_keeps_ids. now apply Forall_map.
  - apply Forall_map. eapply Forall_impl; [|exact Hfits].
    simpl. intros a Ha. now destruct (has_id (Row.id row) a).
Qed.

Lemma db_wf_remove db i : db_wf db -> db_wf (remove_row i db).
Proof.
  intros (ND & Hlt & Hfits). unfold remove_row. repeat split; simpl.
  - clear Hlt Hfits. induction (Db.rows db) as [|a rows IH]; simpl; [constructor|].
    inversion ND as [|? ? Hnotin ND']; subst.
    destruct (negb (has_id i a)); simpl; [|now apply IH].
    constructor; [|now apply IH].
    intros Hin. apply Hnotin. apply in_map_iff in Hin as (x & E & Hx).
    apply filter_In in Hx as [Hx _]. rewrite <- E. now apply in_map.
  - apply Forall_forall. intros x Hx. apply filter_In in Hx as [Hx _].
    rewrite Forall_forall in Hlt. now apply Hlt.
  - apply Forall_forall. intros x Hx. apply filter_In in Hx as [Hx _].
    rewrite Forall_forall in Hfits. now apply Hfits.
Qed.

Lemma removed_row_gone db i : stored_row (remove_row i db) i = None.
Proof.
  unfold stored_row, remove_row. simpl.
  induction (Db.rows db) as [|a rows IH]; simpl; [reflexivity|].
  destruct (has_id i a) eqn:E; simpl; [exact IH | now rewrite E].
Qed.

End Datastore.

(* ================================================================== *)
(** ** The routes, case by case *)
(* ================================================================== *)

Section Routes.

Lemma gate_passes u : verify_user_access u u = Return tt.
Proof. unfold verify_user_access. now rewrite String.eqb_refl. Qed.

Lemma gate_refuses a b :
  a <> b ->
  verify_user_access a b = Raise (HTTPException HTTP_403_FORBIDDEN "Access denied").
Proof.
  intros H. unfold verify_user_access.
  destruct (String.eqb_spec a b); [contradiction | reflexivity].
Qed.


Lemma get_task_found db r :
  db_wf db -> In r (Db.rows db) ->
  get_task (Row.user_id r) (Row.id r) (Row.user_id r) db
  = (Return (response_of r), db).
Proof.
  intros Hwf Hr. unfold get_task. run_session.
  rewrite gate_passes, select_found by (auto; apply Hwf).
  reflexivity.
Qed.


Lemma update_task_ok db r d now :
  db_wf db -> In r (Db.rows db) ->
  fits 500 (TaskUpdate.title d) = true ->
  fits_opt 5000 (TaskUpdate.description d) = true ->
  fits 10 (TaskUpdate.priority d) = true ->
  let row := replaced_row r d now in
  update_task (Row.user_id r) (Row.id r) d (Row.user_id r) now db
  = (Return (response_of row), replace_row row db).
Proof.
  intros Hwf Hr Ht Hd Hp row. unfold update_task. run_session.
  rewrite gate_passes, select_found by (auto; apply Hwf).
  simpl. unfold commit, check_constraints. simpl.
  pose proof (wf_row_fits r Hwf Hr) as Hfit. unfold row_fits in Hfit.
  apply andb_true_iff in Hfit as [Hfit _].
  apply andb_true_iff in Hfit as [Hfit _].
  apply andb_true_iff in Hfit as [Hfit _].
  rewrite Hfit, Ht, Hd, Hp. simpl. unfold refresh. simpl.
  fold row.
  change (Row.id r) with (Row.id row).
  rewrite find_replaced by (simpl; now apply in_map).
  reflexivity.
Qed.

Lemma delete_task_ok db r :
  db_wf db -> In r (Db.rows db) ->
  delete_task (Row.user_id r) (Row.id r) (Row.user_id r) db
  = (Return tt, remove_row (Row.id r) db).
Proof.
  intros Hwf Hr. unfold delete_task. run_session.
  rewrite gate_passes, select_found by (auto; apply Hwf).
  reflexivity.
Qed.

(** The attributes after the loop over [update_data]: a field of the
    set takes the validated value, the others keep theirs. *)
Lemma patch_attrs b ti de co pr du t :
  fold_left setattr
    (TaskPartialUpdate.model_dump_exclude_unset
       (TaskPartialUpdate.mk ti de co pr du (TaskPartialUpdate.fields_set_of b)))
    t
  = Task.mk (Task.id t) (Task.user_id t)
      (if TaskPartialUpdate.is_set (Body.title b) then ti else Task.title t)
      (if TaskPartialUpdate.is_set (Body.description b) then de
       else Task.description t)
      (if TaskPartialUpdate.is_set (Body.completed b) then co
       else Task.completed t)
      (if TaskPartialUpdate.is_set (Body.priority b) then pr
       else Task.priority t)
      (if TaskPartialUpdate.is_set (Body.due_date b) then du
       else Task.due_date t)
      (Task.created_at t) (Task.updated_at t).
Proof.
  unfold TaskPartialUpdate.fields_set_of.
  destruct (TaskPartialUpdate.is_set (Body.title b)),
    (TaskPartialUpdate.is_set (Body.description b)),
    (TaskPartialUpdate.is_set (Body.completed b)),
    (TaskPartialUpdate.is_set (Body.priority b)),
    (TaskPartialUpdate.is_set (Body.due_date b));
    destruct t; reflexivity.
Qed.

Lemma patched_title bt ti old :
  TaskPartialUpdate.title_field bt = inr ti -> bt <> Null ->
  fits 500 old = true ->
  (if TaskPartialUpdate.is_set bt then ti else Some old)
  = Some (patched bt Py.strip old)
  /\ fits 500 (patched bt Py.strip old) = true.
Proof.
  intros H Hn Hold. destruct bt as [| |v]; simpl in *; [auto|congruence|].
  change (TaskPartialUpdate.title_field (Given v) = inr ti) in H.
  rewrite partial_title_given in H.
  destruct (TaskCreate.title_field (Given v)) as [|t] eqn:E; [discriminate|].
  apply title_accepted_inv in E as ((_ & _ & Hlen) & ->).
  injection H as <-. split; [reflexivity | now apply strip_fits].
Qed.

Lemma patched_description bd de old :
  description_field bd = inr de -> fits_opt 5000 old = true ->
  (if TaskPartialUpdate.is_set bd then de else old) = patched_opt bd old
  /\ fits_opt 5000 (patched_opt bd old) = true.
Proof.
  intros H Hold. pose proof (description_fits _ H) as Hfit.
  destruct bd as [| |v]; simpl in *; auto.
  - injection H as <-. auto.
  - destruct (5000 <? Py.len v)%nat; [discriminate|].
    injection H as <-. auto.
Qed.

Lemma patched_completed bc co old :
  TaskPartialUpdate.completed_field bc = inr co -> bc <> Null ->
  (if TaskPartialUpdate.is_set bc then co else Some old)
  = Some (patched bc (fun v => v) old).
Proof.
  intros H Hn. destruct bc as [| |v]; simpl in *; [auto|congruence|].
  now injection H as <-.
Qed.

Lemma patched_priority bp pr old :
  TaskPartialUpdate.priority_field bp = inr pr -> bp <> Null ->
  fits 10 old = true ->
  (if TaskPartialUpdate.is_set bp then pr else Some old)
  = Some (patched bp Py.lower old)
  /\ fits 10 (patched bp Py.lower old) = true.
Proof.
  intros H Hn Hold. destruct bp as [| |v]; simpl in *; [auto|congruence|].
  change (TaskPartialUpdate.priority_field (Given v) = inr pr) in H.
  rewrite partial_priority_given in H.
  destruct (priority_level v) as [w|] eqn:E; [|discriminate].
  injection H as <-. rewrite (lower_is_level _ E).
  split; [reflexivity|]. apply allowed_fits. eapply priority_level_allowed; eauto.
Qed.

Lemma patched_due_date bdu du old :
  due_date_field bdu = inr du ->
  (if TaskPartialUpdate.is_set bdu then du else old) = patched_opt bdu old.
Proof.
  destruct bdu; simpl; intros [= <-]; reflexivity.
Qed.

Lemma no_nulls b :
  nulls_a_required_column b = false ->
  Body.title b <> Null /\ Body.completed b <> Null /\ Body.priority b <> Null.
Proof.
  unfold nulls_a_required_column.
  destruct (Body.title b), (Body.completed b), (Body.priority b);
    intros H; try discriminate; repeat split; discriminate.
Qed.

(** A valid partial update of an existing task of the caller that
    sends no [null] for a required column writes [patched_row]. *)
Lemma patch_route_ok db r b d now :
  db_wf db -> In r (Db.rows db) ->
  TaskPartialUpdate.model_validate b = Return d ->
  nulls_a_required_column b = false ->
  let row := patched_row r b now in
  patch_route (Row.user_id r) (Row.id r) b (Row.user_id r) now db
  = (Return (response_of row), replace_row row db).
Proof.
  intros Hwf Hr Hval Hnull row.
  apply no_nulls in Hnull as (Nt & Nc & Np).
  pose proof (wf_row_fits r Hwf Hr) as Hfit. unfold row_fits in Hfit.
  apply andb_true_iff in Hfit as [Hfit Fp].
  apply andb_true_iff in Hfit as [Hfit Fd].
  apply andb_true_iff in Hfit as [Fu Ft].
  pose proof (partial_validate_fields b) as Hf.
  destruct (TaskPartialUpdate.title_field (Body.title b)) as [|ti] eqn:Eti;
    [destruct Hf as (? & ? & _ & Hf); congruence|].
  destruct (description_field (Body.description b)) as [|de] eqn:Ede;
    [destruct Hf as (? & ? & _ & Hf); congruence|].
  destruct (TaskPartialUpdate.completed_field (Body.completed b)) as [|co] eqn:Eco;
    [destruct Hf as (? & ? & _ & Hf); congruence|].
  destruct (TaskPartialUpdate.priority_field (Body.priority b)) as [|pr] eqn:Epr;
    [destruct Hf as (? & ? & _ & Hf); congruence|].
  destruct (due_date_field (Body.due_date b)) as [|du] eqn:Edu;
    [destruct Hf as (? & ? & _ & Hf); congruence|].
  cbv zeta in Hf. rewrite Hf in Hval. injection Hval as <-.
  destruct (@patched_title _ _ (Row.title r) Eti Nt Ft) as [Xt Yt].
  destruct (@patched_description _ _ (Row.description r) Ede Fd) as [Xd Yd].
  pose proof (@patched_completed _ _ (Row.completed r) Eco Nc) as Xc.
  destruct (@patched_priority _ _ (Row.priority r) Epr Np Fp) as [Xp Yp].
  pose proof (@patched_due_date _ _ (Row.due_date r) Edu) as Xu.
  unfold patch_route. run_session. rewrite Hf.
  unfold patch_task. run_session.
  rewrite gate_passes, select_found by (auto; apply Hwf).
  simpl. rewrite patch_attrs. simpl.
  rewrite Xt, Xd, Xc, Xp, Xu.
  unfold commit, check_constraints. simpl.
  rewrite Fu, Yt, Yd, Yp. simpl. unfold refresh. simpl.
  fold row. change (Row.id r) with (Row.id row).
  rewrite find_replaced by (simpl; now apply in_map).
  reflexivity.
Qed.

(** A partial update that sends [null] for a required column passes
    validation, fails at the write and leaves the table as it was. *)
Lemma patch_route_null db r b d now :
  db_wf db -> In r (Db.rows db) ->
  TaskPartialUpdate.model_validate b = Return d ->
  nulls_a_required_column b = true ->
  patch_route (Row.user_id r) (Row.id r) b (Row.user_id r) now db
  = (Raise internal_server_error, db).
Proof.
  intros Hwf Hr Hval Hnull.
  pose proof (partial_validate_fields b) as Hf.
  destruct (TaskPartialUpdate.title_field (Body.title b)) as [|ti] eqn:Eti;
    [destruct Hf as (? & ? & _ & Hf); congruence|].
  destruct (description_field (Body.description b)) as [|de] eqn:Ede;
    [destruct Hf as (? & ? & _ & Hf); congruence|].
  destruct (TaskPartialUpdate.completed_field (Body.completed b)) as [|co] eqn:Eco;
    [destruct Hf as (? & ? & _ & Hf); congruence|].
  destruct (TaskPartialUpdate.priority_field (Body.priority b)) as [|pr] eqn:Epr;
    [destruct Hf as (? & ? & _ & Hf); congruence|].
  destruct (due_date_field (Body.due_date b)) as [|du] eqn:Edu;
    [destruct Hf as (? & ? & _ & Hf); congruence|].
  cbv zeta in Hf. rewrite Hf in Hval. injection Hval as <-.
  unfold patch_route. run_session. rewrite Hf.
  unfold patch_task. run_session.
  rewrite gate_passes, select_found by (auto; apply Hwf).
  simpl. rewrite patch_attrs. simpl.
  unfold commit, check_constraints. simpl.
  unfold nulls_a_required_column in Hnull.
  destruct (Body.title b) as [| |vt] eqn:Bt; simpl in *.
  - destruct (Body.completed b) as [| |vc] eqn:Bc; simpl in *.
    + destruct (Body.priority b) as [| |vp] eqn:Bp; simpl in *;
        try discriminate.
      injection Epr as <-. reflexivity.
    + injection Eco as <-. reflexivity.
    + destruct (Body.priority b) as [| |vp] eqn:Bp; simpl in *;
        try discriminate.
      injection Eco as <-. injection Epr as <-. reflexivity.
  - injection Eti as <-. reflexivity.
  - destruct ti as [ti|].
    + destruct (Body.completed b) as [| |vc] eqn:Bc; simpl in *.
      * destruct (Body.priority b) as [| |vp] eqn:Bp; simpl in *;
          try discriminate.
        injection Epr as <-. reflexivity.
      * injection Eco as <-. reflexivity.
      * destruct (Body.priority b) as [| |vp] eqn:Bp; simpl in *;
          try discriminate.
        injection Eco as <-. injection Epr as <-. reflexivity.
    + reflexivity.
Qed.

(** What validation tells about a create body and its object. *)
Lemma create_validated b d :
  TaskCreate.model_validate b = Return d ->
  (exists v, Body.title b = Given v /\ acceptable_title v
             /\ TaskCreate.title d = Py.strip v)
  /\ description_field (Body.description b) = inr (TaskCreate.description d)
  /\ (exists w, TaskCreate.priority d = Some w /\ In w allowed
                /\ match Body.priority b with
                   | Given v => priority_level v = Some w
                   | _ => w = "medium"
                   end)
  /\ due_date_field (Body.due_date b) = inr (TaskCreate.due_date d).
Proof.
  intros Hval. pose proof (create_validate_fields b) as Hf.
  destruct (TaskCreate.title_field (Body.title b)) as [|ti] eqn:Eti;
    [destruct Hf as (? & ? & _ & Hf); congruence|].
  destruct (description_field (Body.description b)) as [|de] eqn:Ede;
    [destruct Hf as (? & ? & _ & Hf); congruence|].
  destruct (TaskCreate.priority_field (Body.priority b)) as [|pr] eqn:Epr;
    [destruct Hf as (? & ? & _ & Hf); congruence|].
  destruct (due_date_field (Body.due_date b)) as [|du] eqn:Edu;
    [destruct Hf as (? & ? & _ & Hf); congruence|].
  cbv zeta in Hf. rewrite Hf in Hval. injection Hval as <-. simpl.
  repeat split.
  - destruct (Body.title b) as [| |v]; try discriminate.
    apply title_accepted_inv in Eti as [Ha ->]. eauto.
  - destruct (Body.priority b) as [| |v].
    + injection Epr as <-. exists "medium". simpl. auto.
    + injection Epr as <-. exists "medium". simpl. auto.
    + rewrite create_priority_given in Epr.
      destruct (priority_level v) as [w|] eqn:E; [|discriminate].
      injection Epr as <-. exists w. repeat split; auto.
      eapply priority_level_allowed; eauto.
Qed.

(** What validation tells about a full-replace body and its object. *)
Lemma update_validated b d :
  TaskUpdate.model_validate b = Return d ->
  (exists v, Body.title b = Given v /\ acceptable_title v
             /\ TaskUpdate.title d = Py.strip v)
  /\ description_field (Body.description b) = inr (TaskUpdate.description d)
  /\ Body.completed b = Given (TaskUpdate.completed d)
  /\ (In (TaskUpdate.priority d) allowed
      /\ match Body.priority b with
         | Given v => priority_level v = Some (TaskUpdate.priority d)
         | Absent => TaskUpdate.priority d = "medium"
         | Null => False
         end)
  /\ due_date_field (Body.due_date b) = inr (TaskUpdate.due_date d).
Proof.
  intros Hval. pose proof (update_validate_fields b) as Hf.
  destruct (TaskUpdate.title_field (Body.title b)) as [|ti] eqn:Eti;
    [destruct Hf as (? & ? & _ & Hf); congruence|].
  destruct (description_field (Body.description b)) as [|de] eqn:Ede;
    [destruct Hf as (? & ? & _ & Hf); congruence|].
  destruct (TaskUpdate.completed_field (Body.completed b)) as [|co] eqn:Eco;
    [destruct Hf as (? & ? & _ & Hf); congruence|].
  destruct (TaskUpdate.priority_field (Body.priority b)) as [|pr] eqn:Epr;
    [destruct Hf as (? & ? & _ & Hf); congruence|].
  destruct (due_date_field (Body.due_date b)) as [|du] eqn:Edu;
    [destruct Hf as (? & ? & _ & Hf); congruence|].
  cbv zeta in Hf. rewrite Hf in Hval. injection Hval as <-. simpl.
  repeat split.
  - destruct (Body.title b) as [| |v]; try discriminate.
    apply title_accepted_inv in Eti as [Ha ->]. eauto.
  - destruct (Body.completed b); try discriminate. now injection Eco as <-.
  - destruct (Body.priority b) as [| |v]; [| discriminate |].
    + injection Epr as <-. simpl. auto.
    + simpl in Epr. rewrite update_priority_given in Epr.
      destruct (priority_level v) as [w|] eqn:E; [|discriminate].
      injection Epr as <-. eapply priority_level_allowed; eauto.
  - destruct (Body.priority b) as [| |v]; [| discriminate |].
    + now injection Epr as <-.
    + simpl in Epr. rewrite update_priority_given in Epr.
      destruct (priority_level v) as [w|] eqn:E; [|discriminate].
      now injection Epr as <-.
Qed.


(** A valid full replace of an existing task of the caller writes
    [replaced_row]. *)
Lemma put_route_ok db r b d now :
  db_wf db -> In r (Db.rows db) ->
  TaskUpdate.model_validate b = Return d ->
  let row := replaced_row r d now in
  put_route (Row.user_id r) (Row.id r) b (Row.user_id r) now db
  = (Return (response_of row), replace_row row db).
Proof.
  intros Hwf Hr Hval row.
  destruct (update_validated _ Hval)
    as ((v & _ & (_ & _ & Hlen) & Et) & Ed & _ & (Hw & _) & _).
  unfold put_route. run_session. rewrite Hval.
  apply update_task_ok; auto.
  - rewrite Et. now apply strip_fits.
  - eapply description_fits; eauto.
  - now apply allowed_fits.
Qed.




End Routes.

(* ================================================================== *)
(** ** The key-set cache, case by case *)
(* ================================================================== *)

Section KeySetCache.

Variable url : string.

(** An entry that is not served at one timer reading is not served at
    a later one. *)
Lemma contains_later cache now later :
  now <= later ->
  TTLCache.contains cache url now = false ->
  TTLCache.contains cache url later = false.
Proof.
  unfold TTLCache.contains. intros Hle.
  destruct (find (TTLCache.has_key url) (TTLCache.links cache)) as [l|];
    [|reflexivity].
  intros H. apply Z.ltb_ge in H. apply Z.ltb_ge. lia.
Qed.

(** Once the cache does not serve the entry, a failed fetch is raised:
    whether the entry was never stored or is stored and expired makes
    no difference. *)
Lemma fetch_failure_after_expiry cache force_refresh now later :
  now <= later ->
  TTLCache.contains cache url now = false ->
  fetch_jwks url force_refresh now later Failed_HTTPError cache
  = (Raise HTTPError, cache).
Proof.
  intros Hle Hc. unfold fetch_jwks.
  rewrite Hc, andb_false_r. now rewrite (contains_later cache Hle Hc).
Qed.

(** The fallback serves an entry only while it has not expired, which
    takes a forced refresh to reach. *)
Lemma fetch_failure_forced cache now later :
  TTLCache.contains cache url later = true ->
  exists jwks,
    TTLCache.stored cache url = Some jwks
    /\ fetch_jwks url true now later Failed_HTTPError cache
       = (Return jwks, cache).
Proof.
  unfold fetch_jwks, TTLCache.contains, TTLCache.getitem, TTLCache.stored.
  destruct (find (TTLCache.has_key url) (TTLCache.links cache)) as [l|];
    [|discriminate].
  intros H. exists (TTLCache.value l). cbn [negb andb option_map].
  now rewrite !H.
Qed.

(** A fresh entry is served without a fetch. *)
Lemma fetch_cached cache now later response :
  TTLCache.contains cache url now = true ->
  exists jwks,
    TTLCache.stored cache url = Some jwks
    /\ fetch_jwks url false now later response cache = (Return jwks, cache).
Proof.
  unfold fetch_jwks, TTLCache.contains, TTLCache.getitem, TTLCache.stored.
  destruct (find (TTLCache.has_key url) (TTLCache.links cache)) as [l|];
    [|discriminate].
  intros H. exists (TTLCache.value l). cbn [negb andb option_map].
  now rewrite !H.
Qed.

End KeySetCache.

(* ================================================================== *)
(** ** Properties of the access gate, the verifier and the cache *)
(* ================================================================== *)

(** C2.  The access gate refuses with 403 "Access denied" exactly when
    the subject and the path owner differ as strings, it returns [None]
    exactly when they are equal, it changes nothing in the session, and
    every handler that it refuses answers 403 with the table as it was. *)
Theorem C2_access_gate :
  forall subject path_owner : string,
    (verify_user_access subject path_owner
     = Raise (HTTPException HTTP_403_FORBIDDEN "Access denied")
     <-> subject <> path_owner)
    /\ (verify_user_access subject path_owner = Return tt
        <-> subject = path_owner)
    /\ (forall db,
          snd (lift (verify_user_access subject path_owner) db) = db)
    /\ (subject <> path_owner ->
        forall task_id created_now updated_now now c u p db,
          let forbidden := HTTPException HTTP_403_FORBIDDEN "Access denied" in
          create_task path_owner c subject created_now updated_now db
            = (Raise forbidden, db)
          /\ get_task path_owner task_id subject db = (Raise forbidden, db)
          /\ update_task path_owner task_id u subject now db
             = (Raise forbidden, db)
          /\ patch_task path_owner task_id p subject now db
             = (Raise forbidden, db)
          /\ delete_task path_owner task_id subject db = (Raise forbidden, db)).
Proof.
  intros subject path_owner. unfold verify_user_access at 1 2.
  destruct (String.eqb_spec subject path_owner) as [E|E]; simpl.
  - repeat split; try congruence; try discriminate; contradiction.
  - repeat split; try congruence; try discriminate;
      unfold create_task, get_task, update_task, patch_task, delete_task,
        sbind, lift; now rewrite (gate_refuses E).
Qed.

(** The gate compares characters exactly: a change of case is a
    different subject. *)
Example access_gate_case_sensitive :
  verify_user_access "Alice" "alice"
  = Raise (HTTPException HTTP_403_FORBIDDEN "Access denied").
Proof. reflexivity. Qed.

(** C10.  A token that verifies (signature, expiry, required claims)
    and whose [sub] claim is the empty string is refused with 401; a
    subject that [get_user_id_from_token] returns is the token's [sub]
    claim and is truthy, so it is never the empty string. *)
Theorem C10_empty_subject_refused :
  forall (jwt_decode : string -> JwtOutcome) (token : string),
    (forall payload,
        verify_token jwt_decode token = Return payload ->
        dict_get payload "sub" = JStr "" ->
        get_user_id_from_token jwt_decode token
        = Raise (HTTPException HTTP_401_UNAUTHORIZED "Not authenticated"))
    /\ (forall user_id,
          get_user_id_from_token jwt_decode token = Return user_id ->
          (exists payload,
              verify_token jwt_decode token = Return payload
              /\ dict_get payload "sub" = user_id)
          /\ truthy user_id = true
          /\ user_id <> JStr ""
          /\ (forall s, user_id = JStr s -> s <> "")).
Proof.
  intros jwt_decode token. unfold get_user_id_from_token. split.
  - intros payload -> Hsub. simpl. now rewrite Hsub.
  - intros user_id.
    destruct (verify_token jwt_decode token) as [payload|e]; simpl;
      [|discriminate].
    destruct (truthy (dict_get payload "sub")) eqn:T; simpl; [|discriminate].
    intros [= <-]. repeat split; eauto.
    + intros E. rewrite E in T. discriminate.
    + intros s E ->. rewrite E in T. discriminate.
Qed.

(** A token with an empty subject, and one with the subject [u1]. *)
Lemma C10_empty_subject_refused_witness :
  get_user_id_from_token (sample_decode "") "token"
  = Raise (HTTPException HTTP_401_UNAUTHORIZED "Not authenticated")
  /\ get_user_id_from_token (sample_decode "u1") "token" = Return (JStr "u1")
  /\ "u1" <> "".
Proof.
  split; [|split].
  - exact (proj1 (C10_empty_subject_refused (sample_decode "") "token")
                 (sample_claims "") eq_refl eq_refl).
  - reflexivity.
  - exact (proj2 (proj2 (proj2
             (proj2 (C10_empty_subject_refused (sample_decode "u1") "token")
                    (JStr "u1") eq_refl)))
             "u1" eq_refl).
Defined.

(** C4.  The cache holds a key set fetched at time 0, so the entry
    expires at 3600.  At 3600 the entry is still stored, the remote
    fetch fails, and [fetch_jwks] raises the failure: the stored key set
    is not returned.  One second earlier the cache answers by itself. *)
Theorem C4_stale_key_set_not_served :
  let url := "http://localhost:3000/api/auth/jwks" in
  let jwks := JDict [("keys", JList [JDict [("kid", JStr "k1")]])] in
  let cache := snd (fetch_jwks url false 0 0 (Fetched jwks) _jwks_cache) in
  TTLCache.stored cache url = Some jwks
  /\ fetch_jwks url false 3599 3599 Failed_HTTPError cache = (Return jwks, cache)
  /\ fetch_jwks url false 3600 3600 Failed_HTTPError cache = (Raise HTTPError, cache)
  /\ fetch_jwks url true 3600 3600 Failed_HTTPError cache = (Raise HTTPError, cache)
  /\ fetch_jwks url false 0 0 Failed_HTTPError _jwks_cache
     = (Raise HTTPError, _jwks_cache).
Proof. repeat split. Qed.

(* ================================================================== *)
(** ** Properties of the task routes *)
(* ================================================================== *)

Lemma sample_db_wf : db_wf sample_db.
Proof.
  repeat split; simpl.
  - repeat constructor. intros [].
  - repeat constructor.
  - repeat constructor.
Qed.

Lemma stored_row_none db i :
  stored_row db i = None -> ~ In i (map Row.id (Db.rows db)).
Proof.
  unfold stored_row. intros H Hin.
  apply in_map_iff in Hin as (r & E & Hr).
  pose proof (find_none _ _ H r Hr) as Hn.
  unfold has_id in Hn. rewrite E, Z.eqb_refl in Hn. discriminate.
Qed.

Lemma remove_row_no_id db i :
  ~ In i (map Row.id (Db.rows (remove_row i db))).
Proof. apply stored_row_none, removed_row_gone. Qed.









(** C9.  A partial update with an empty body of an existing task of the
    caller passes validation and succeeds: the answer is the stored
    row, which is the old row with [updated_at] set to the clock's
    reading and every other column as it was. *)
Theorem C9_empty_patch :
  forall db r now,
    db_wf db -> In r (Db.rows db) ->
    let body := Body.mk Absent Absent Absent Absent Absent in
    let row := Row.mk (Row.id r) (Row.user_id r) (Row.title r)
                      (Row.description r) (Row.completed r) (Row.priority r)
                      (Row.due_date r) (Row.created_at r) now in
    TaskPartialUpdate.model_validate body
    = Return (TaskPartialUpdate.mk None None None None None [])
    /\ TaskPartialUpdate.model_dump_exclude_unset
         (TaskPartialUpdate.mk None None None None None []) = []
    /\ patch_route (Row.user_id r) (Row.id r) body (Row.user_id r) now db
       = (Return (response_of row), replace_row row db)
    /\ stored_row (replace_row row db) (Row.id r) = Some row.
Proof.
  intros db r now Hwf Hr body row. repeat split.
  - exact (@patch_route_ok db r body _ now Hwf Hr eq_refl eq_refl).
  - unfold stored_row, replace_row. simpl.
    change (Row.id r) with (Row.id row).
    apply find_replaced. simpl. now apply in_map.
Qed.

(** An empty patch of the sample task at time 2000. *)
Lemma C9_empty_patch_witness :
  patch_route "u1" 1 (Body.mk Absent Absent Absent Absent Absent) "u1" 2000
              sample_db
  = (Return (TaskResponse.mk 1 "u1" "Buy milk" None false "medium" None 1000 2000),
     Db.mk [Row.mk 1 "u1" "Buy milk" None false "medium" None 1000 2000] 2).
Proof.
  exact (proj1 (proj2 (proj2
           (@C9_empty_patch sample_db sample_row 2000 sample_db_wf
                            (or_introl eq_refl))))).
Defined.






Lemma replace_keeps_others db row r' :
  In r' (Db.rows db) -> Row.id r' <> Row.id row ->
  In r' (Db.rows (replace_row row db)).
Proof.
  intros Hin Hne. unfold replace_row. simpl. apply in_map_iff.
  exists r'. split; [|exact Hin]. unfold has_id.
  destruct (Z.eqb_spec (Row.id r') (Row.id row)); [contradiction | reflexivity].
Qed.


















(* ================================================================== *)
(** ** Listing: the caller's tasks, newest first *)
(* ================================================================== *)

Section Listing.

Lemma insert_desc_perm r l : Permutation (insert_desc r l) (r :: l).
Proof.
  induction l as [|x l IH]; simpl; [reflexivity|].
  destruct (Row.created_at x <=? Row.created_at r); [reflexivity|].
  rewrite IH. apply perm_swap.
Qed.

Lemma order_perm l : Permutation (order_by_created_at_desc l) l.
Proof.
  induction l as [|r l IH]; simpl; [reflexivity|].
  rewrite insert_desc_perm. now constructor.
Qed.



Lemma validate_all_load l :
  validate_all (map load l) = Return (map response_of l).
Proof.
  induction l as [|r l IH]; simpl; [reflexivity|]. now rewrite IH.
Qed.

Lemma list_tasks_answer db user_id :
  list_tasks user_id user_id db
  = (Return (map response_of
               (order_by_created_at_desc
                  (filter (where_user_id user_id) (Db.rows db)))),
     db).
Proof.
  unfold list_tasks, execute_select_all. run_session.
  rewrite gate_passes. now rewrite validate_all_load.
Qed.




End Listing.

(* ================================================================== *)
(** ** What a request does to the table *)
(* ================================================================== *)

Section Effects.

Lemma lstrip_fixed s :
  (forall c, Py.first_char s = Some c -> Py.isspace c = false) ->
  Py.lstrip s = s.
Proof.
  destruct s as [|c s]; simpl; [reflexivity|].
  intros H. now rewrite (H c eq_refl).
Qed.

Lemma rstrip_fixed s :
  (forall c, Py.last_char s = Some c -> Py.isspace c = false) ->
  Py.rstrip s = s.
Proof.
  induction s as [|c s IH]; simpl; [reflexivity|].
  intros H. destruct s as [|d s'].
  - simpl. now rewrite (H c eq_refl).
  - rewrite IH by exact H. reflexivity.
Qed.

Lemma strip_idempotent s : Py.strip (Py.strip s) = Py.strip s.
Proof.
  destruct (strip_trimmed s) as (l & r & _ & _ & _ & Hf & Hl).
  unfold Py.strip at 1. rewrite lstrip_fixed by exact Hf.
  now apply rstrip_fixed.
Qed.

Lemma stripped_title_invariant v :
  acceptable_title v ->
  Py.strip v <> "" /\ Py.strip (Py.strip v) = Py.strip v.
Proof.
  intros (_ & A & _). split; [|apply strip_idempotent].
  intros E. apply strip_empty_iff in E. congruence.
Qed.

Lemma check_constraints_inv x row :
  check_constraints x = Return row ->
  Task.id x = Some (Row.id row) /\ Task.user_id x = Row.user_id row
  /\ Task.title x = Some (Row.title row)
  /\ Task.priority x = Some (Row.priority row)
  /\ Task.created_at x = Row.created_at row
  /\ row_fits row = true.
Proof.
  unfold check_constraints, row_fits.
  destruct (Task.id x), (Task.title x), (Task.completed x), (Task.priority x);
    try discriminate.
  destruct (fits 255 (Task.user_id x) && fits 500 s
            && fits_opt 5000 (Task.description x) && fits 10 s0) eqn:F;
    [|discriminate].
  intros [= <-]. simpl. repeat split. exact F.
Qed.

Lemma selected_row task_id user_id rows r l :
  filter (where_id_and_user_id task_id user_id) rows = r :: l ->
  In r rows /\ Row.id r = task_id /\ Row.user_id r = user_id.
Proof.
  intros F. assert (In r (filter (where_id_and_user_id task_id user_id) rows))
    as H by (rewrite F; now left).
  apply filter_In in H as [Hin H]. unfold where_id_and_user_id in H.
  apply andb_true_iff in H as [H1 H2].
  apply Z.eqb_eq in H1. apply String.eqb_eq in H2. auto.
Qed.

Lemma reraise_unchanged (A : Type) b e db :
  snd (reraise_http_else_500 (A := A) b e db) = db.
Proof. destruct e, b; reflexivity. Qed.

(** The table after a handler is the table after its [try] block: the
    [except] clauses write nothing. *)
Lemma try_reraise_snd (A : Type) (body : Session A) b db :
  snd (try_except body (reraise_http_else_500 b) db) = snd (body db).
Proof.
  unfold try_except. destruct (body db) as [[a|e] db']; simpl;
    [reflexivity | apply reraise_unchanged].
Qed.

Lemma try_all_snd (A : Type) (body : Session A) db :
  snd (try_except body (all_to_500 (A := A)) db) = snd (body db).
Proof.
  unfold try_except. now destruct (body db) as [[a|e] db'].
Qed.

(** Reading back a written object and building the response write
    nothing. *)
Lemma refresh_validate_snd task db :
  snd ((task <~ refresh task ;; lift (TaskResponse.model_validate task)) db)
  = db.
Proof.
  unfold refresh. run_session.
  destruct (Task.id task) as [i|]; [|reflexivity].
  now destruct (find (has_id i) (Db.rows db)).
Qed.

Lemma gated_snd (A : Type) B user_id (m : Session A) db :
  snd ((lift (verify_user_access B user_id) ;;; m) db)
  = if String.eqb B user_id then snd (m db) else db.
Proof.
  unfold sbind, lift, verify_user_access.
  now destruct (String.eqb B user_id).
Qed.

Lemma get_task_unchanged user_id task_id B db :
  snd (get_task user_id task_id B db) = db.
Proof.
  unfold get_task. rewrite gated_snd, try_reraise_snd.
  destruct (String.eqb B user_id); [|reflexivity].
  unfold execute_select. run_session.
  destruct (filter _ _) as [|r [|r' l]]; reflexivity.
Qed.

Lemma list_tasks_unchanged user_id B db :
  snd (list_tasks user_id B db) = db.
Proof.
  unfold list_tasks, execute_select_all. run_session.
  destruct (verify_user_access B user_id); [|reflexivity].
  now destruct (validate_all _).
Qed.

Lemma delete_task_effect user_id task_id B db :
  Effect B (Some task_id) db (snd (delete_task user_id task_id B db)).
Proof.
  unfold delete_task. rewrite gated_snd, try_reraise_snd.
  destruct (String.eqb_spec B user_id) as [->|]; [|apply effect_none].
  unfold execute_select. run_session.
  destruct (filter _ _) as [|r [|r' l]] eqn:F; simpl; try apply effect_none.
  destruct (selected_row _ _ _ F) as (Hin & Hid & Hu).
  apply (@effect_delete user_id (Some task_id) db r); auto.
  now rewrite Hid.
Qed.

(** The write of a changed object of a selected row. *)
Lemma commit_effect B task_id db r task :
  In r (Db.rows db) -> Row.id r = task_id -> Row.user_id r = B ->
  Task.id task = Some (Row.id r) -> Task.user_id task = Row.user_id r ->
  Task.created_at task = Row.created_at r ->
  (forall t p, Task.title task = Some t -> Task.priority task = Some p ->
               task_invariant r ->
               t <> "" /\ Py.strip t = t /\ In p allowed) ->
  Effect B (Some task_id) db
    (snd ((commit task ;;;
           task <~ refresh task ;; lift (TaskResponse.model_validate task)) db)).
Proof.
  intros Hin Hid Hu Ti Tu Tc Tinv. unfold sbind at 1. unfold commit.
  destruct (check_constraints task) as [row|e] eqn:C; [|apply effect_none].
  rewrite refresh_validate_snd.
  apply check_constraints_inv in C as (Ci & Cu & Ct & Cp & Cc & Cf).
  apply (@effect_replace B (Some task_id) db r row); auto; try congruence.
  intros Hr. unfold task_invariant. now apply Tinv.
Qed.

Lemma update_task_effect user_id task_id d B now db :
  TaskUpdate.title d <> "" ->
  Py.strip (TaskUpdate.title d) = TaskUpdate.title d ->
  In (TaskUpdate.priority d) allowed ->
  Effect B (Some task_id) db (snd (update_task user_id task_id d B now db)).
Proof.
  intros Ht Hs Hp. unfold update_task. rewrite gated_snd, try_reraise_snd.
  destruct (String.eqb_spec B user_id) as [->|]; [|apply effect_none].
  unfold sbind at 1, execute_select.
  destruct (filter _ _) as [|r [|r' l]] eqn:F; try apply effect_none.
  destruct (selected_row _ _ _ F) as (Hin & Hid & Hu).
  unfold scalar_one_or_none, ret, sbind at 1.
  apply commit_effect with (r := r); auto.
  simpl. intros t p [= <-] [= <-] _. auto.
Qed.

Lemma fold_setattr_keeps items task :
  Task.id (fold_left setattr items task) = Task.id task
  /\ Task.user_id (fold_left setattr items task) = Task.user_id task
  /\ Task.created_at (fold_left setattr items task) = Task.created_at task.
Proof.
  revert task. induction items as [|i items IH]; intros task; simpl; [auto|].
  destruct (IH (setattr task i)) as (-> & -> & ->). now destruct i.
Qed.

Lemma patch_route_effect user_id task_id b B now db :
  Effect B (Some task_id) db (snd (patch_route user_id task_id b B now db)).
Proof.
  unfold patch_route. unfold sbind at 1, lift at 1.
  pose proof (partial_validate_fields b) as Hf.
  destruct (TaskPartialUpdate.model_validate b) as [d|e] eqn:Hval;
    [|apply effect_none].
  destruct (TaskPartialUpdate.title_field (Body.title b)) as [|ti] eqn:Eti;
    [destruct Hf as (? & ? & _ & Hf); congruence|].
  destruct (description_field (Body.description b)) as [|de] eqn:Ede;
    [destruct Hf as (? & ? & _ & Hf); congruence|].
  destruct (TaskPartialUpdate.completed_field (Body.completed b)) as [|co] eqn:Eco;
    [destruct Hf as (? & ? & _ & Hf); congruence|].
  destruct (TaskPartialUpdate.priority_field (Body.priority b)) as [|pr] eqn:Epr;
    [destruct Hf as (? & ? & _ & Hf); congruence|].
  destruct (due_date_field (Body.due_date b)) as [|du] eqn:Edu;
    [destruct Hf as (? & ? & _ & Hf); congruence|].
  cbv zeta in Hf. injection Hf as ->.
  unfold patch_task. rewrite gated_snd, try_reraise_snd.
  destruct (String.eqb_spec B user_id) as [->|]; [|apply effect_none].
  unfold sbind at 1, execute_select.
  destruct (filter _ _) as [|r [|r' l]] eqn:F; try apply effect_none.
  destruct (selected_row _ _ _ F) as (Hin & Hid & Hu).
  unfold scalar_one_or_none, ret, sbind at 1.
  apply commit_effect with (r := r); auto.
  - simpl. now destruct (fold_setattr_keeps
                           (TaskPartialUpdate.model_dump_exclude_unset
                              (TaskPartialUpdate.mk ti de co pr du
                                 (TaskPartialUpdate.fields_set_of b)))
                           (load r)) as (-> & _).
  - simpl. now destruct (fold_setattr_keeps
                           (TaskPartialUpdate.model_dump_exclude_unset
                              (TaskPartialUpdate.mk ti de co pr du
                                 (TaskPartialUpdate.fields_set_of b)))
                           (load r)) as (_ & -> & _).
  - simpl. now destruct (fold_setattr_keeps
                           (TaskPartialUpdate.model_dump_exclude_unset
                              (TaskPartialUpdate.mk ti de co pr du
                                 (TaskPartialUpdate.fields_set_of b)))
                           (load r)) as (_ & _ & ->).
  - rewrite patch_attrs. simpl. intros t p Et Ep (I1 & I2 & I3).
    split; [|split].
    + destruct (Body.title b) as [| |v] eqn:Bt; simpl in Et.
      * now injection Et as <-.
      * simpl in Eti. injection Eti as <-. discriminate.
      * subst ti. rewrite partial_title_given in Eti.
        destruct (TaskCreate.title_field (Given v)) as [|t'] eqn:E';
          [discriminate|].
        injection Eti as <-. apply title_accepted_inv in E' as [Ha ->].
        now apply stripped_title_invariant.
    + destruct (Body.title b) as [| |v] eqn:Bt; simpl in Et.
      * now injection Et as <-.
      * simpl in Eti. injection Eti as <-. discriminate.
      * subst ti. rewrite partial_title_given in Eti.
        destruct (TaskCreate.title_field (Given v)) as [|t'] eqn:E';
          [discriminate|].
        injection Eti as <-. apply title_accepted_inv in E' as [Ha ->].
        now apply stripped_title_invariant.
    + destruct (Body.priority b) as [| |v] eqn:Bp; simpl in Ep.
      * now injection Ep as <-.
      * simpl in Epr. injection Epr as <-. discriminate.
      * subst pr. rewrite partial_priority_given in Epr.
        destruct (priority_level v) as [w|] eqn:Ew; [|discriminate].
        injection Epr as <-. eapply priority_level_allowed; eauto.
Qed.

Lemma put_route_effect user_id task_id b B now db :
  Effect B (Some task_id) db (snd (put_route user_id task_id b B now db)).
Proof.
  unfold put_route. unfold sbind at 1, lift at 1.
  destruct (TaskUpdate.model_validate b) as [d|e] eqn:Hval; [|apply effect_none].
  destruct (update_validated _ Hval)
    as ((v & _ & Ha & Et) & _ & _ & (Hw & _) & _).
  apply update_task_effect; auto; rewrite Et; now apply stripped_title_invariant.
Qed.

Lemma post_route_effect user_id b B created_now updated_now db :
  Effect B None db (snd (post_route user_id b B created_now updated_now db)).
Proof.
  unfold post_route. unfold sbind at 1, lift at 1.
  destruct (TaskCreate.model_validate b) as [d|e] eqn:Hval; [|apply effect_none].
  destruct (create_validated _ Hval)
    as ((v & _ & Ha & Et) & _ & (w & Ew & Hw & _) & _).
  unfold create_task. rewrite gated_snd, try_all_snd.
  destruct (String.eqb_spec B user_id) as [->|]; [|apply effect_none].
  unfold sbind at 1. unfold add_commit.
  match goal with
  | |- context [check_constraints ?t] =>
      destruct (check_constraints t) as [row|e] eqn:C
  end; [|apply effect_none].
  rewrite refresh_validate_snd.
  apply check_constraints_inv in C as (Ci & Cu & Ct & Cp & Cc & Cf).
  simpl in Ci, Cu, Ct, Cp. injection Ci as Ci. injection Ct as Ct.
  injection Cp as Cp.
  apply (@effect_insert user_id None db row); auto.
  unfold task_invariant. rewrite <- Ct, <- Cp, Et, Ew. simpl.
  rewrite (allowed_truthy Hw).
  destruct (stripped_title_invariant Ha). auto.
Qed.

(** Every request, whoever sends it, has one of the four effects. *)
Lemma serve_effect req B db : Effect B (target req) db (serve req B db).
Proof.
  destruct req; simpl.
  - apply post_route_effect.
  - rewrite list_tasks_unchanged. apply effect_none.
  - rewrite get_task_unchanged. apply effect_none.
  - apply put_route_effect.
  - apply patch_route_effect.
  - apply delete_task_effect.
Qed.


Lemma same_id_same_row db r r' :
  db_wf db -> In r (Db.rows db) -> In r' (Db.rows db) ->
  Row.id r = Row.id r' -> r = r'.
Proof.
  intros Hwf Hr Hr' E.
  pose proof (stored_row_of r Hwf Hr) as H1.
  pose proof (stored_row_of r' Hwf Hr') as H2.
  rewrite E in H1. congruence.
Qed.

Lemma replace_keeps_row db row r :
  In r (Db.rows db) -> Row.id r <> Row.id row ->
  In r (Db.rows (replace_row row db)).
Proof. intros. now apply replace_keeps_others. Qed.

Lemma remove_keeps_row db i r :
  In r (Db.rows db) -> Row.id r <> i -> In r (Db.rows (remove_row i db)).
Proof.
  intros Hr Hne. unfold remove_row. simpl. apply filter_In. split; [exact Hr|].
  unfold has_id. now destruct (Z.eqb_spec (Row.id r) i).
Qed.

Lemma effect_keeps_wf B t db db' :
  Effect B t db db' -> db_wf db -> db_wf db'.
Proof.
  intros [|row Hid _ Hfit _|old row _ _ _ _ _ _ Hfit _|old _ _ _] Hwf.
  - exact Hwf.
  - now apply db_wf_append.
  - now apply db_wf_replace.
  - now apply db_wf_remove.
Qed.

Lemma effect_keeps_invariant B t db db' :
  Effect B t db db' ->
  Forall task_invariant (Db.rows db) -> Forall task_invariant (Db.rows db').
Proof.
  intros [|row _ _ _ Hinv|old row Hold _ _ _ _ _ _ Hinv|old _ _ _] Hall; simpl.
  - exact Hall.
  - apply Forall_app. split; [exact Hall|].
    constructor; [exact Hinv | constructor].
  - apply Forall_map. apply Forall_forall. intros x Hx.
    rewrite Forall_forall in Hall.
    destruct (has_id (Row.id row) x); [|now apply Hall].
    apply Hinv. now apply Hall.
  - apply Forall_forall. intros x Hx. apply filter_In in Hx as [Hx _].
    rewrite Forall_forall in Hall. now apply Hall.
Qed.

(** X3.  Whatever requests have been served, by whomever and with
    whatever bodies, the table keeps the invariants of the data model:
    identifiers are unique and below the sequence, every column fits
    its declared length, every title is non-empty and stripped, every
    priority is one of [low], [medium], [high]. *)
Theorem reachable_tables_are_valid :
  forall (history : list (Request * string)) (first_id : Z),
    let db := serve_all history (Db.mk [] first_id) in
    db_wf db /\ Forall task_invariant (Db.rows db).
Proof.
  intros history first_id. unfold serve_all.
  assert (forall db,
             db_wf db /\ Forall task_invariant (Db.rows db) ->
             db_wf (fold_left (fun db rq => serve (fst rq) (snd rq) db) history db)
             /\ Forall task_invariant
                  (Db.rows (fold_left (fun db rq => serve (fst rq) (snd rq) db)
                                      history db))) as H.
  { induction history as [|[req B] history IH]; intros db [Hwf Hinv]; simpl;
      [auto|].
    apply IH. pose proof (serve_effect req B db) as He. split.
    - eapply effect_keeps_wf; eauto.
    - eapply effect_keeps_invariant; eauto. }
  apply H. split; [apply db_wf_empty | constructor].
Qed.

(** X4.  No request changes or removes a task of another owner: a row
    whose owner is not the authenticated subject is in the table after
    the request exactly as before, whatever the path, the identifier and
    the body of the request. *)
Theorem requests_leave_other_owners_rows :
  forall req B db r,
    db_wf db -> In r (Db.rows db) -> Row.user_id r <> B ->
    In r (Db.rows (serve req B db)).
Proof.
  intros req B db r Hwf Hr Hne.
  destruct (serve_effect req B db)
    as [|row _ _ _ _|old row Hold Hu _ Hid _ _ _ _|old Hold Hu _]; simpl.
  - exact Hr.
  - apply in_or_app. now left.
  - apply replace_keeps_row; [exact Hr|]. rewrite Hid. intros E.
    apply Hne. rewrite <- Hu. f_equal.
    exact (same_id_same_row r old Hwf Hr Hold E).
  - apply remove_keeps_row; [exact Hr|]. intros E.
    apply Hne. rewrite <- Hu. f_equal.
    exact (same_id_same_row r old Hwf Hr Hold E).
Qed.

Lemma requests_leave_other_owners_rows_witness :
  In sample_row
     (Db.rows (serve (DELETE "u1" 1) "u2" sample_db))
  /\ In sample_row
        (Db.rows (serve (PUT "u2" 1
                             (Body.mk (Given "Hacked") Null (Given false)
                                      Absent Absent) 2000)
                        "u2" sample_db)).
Proof.
  assert (In sample_row (Db.rows sample_db)) as Hin by (simpl; auto).
  assert (Row.user_id sample_row <> "u2") as Hne by discriminate.
  split.
  - exact (@requests_leave_other_owners_rows (DELETE "u1" 1) "u2" sample_db
             sample_row sample_db_wf Hin Hne).
  - exact (@requests_leave_other_owners_rows
             (PUT "u2" 1 (Body.mk (Given "Hacked") Null (Given false)
                                  Absent Absent) 2000)
             "u2" sample_db sample_row sample_db_wf Hin Hne).
Defined.



(** X6.  The identifier, the owner and the creation time of a task never
    change: after any request, a row with the identifier of a row stored
    before has that row's owner and [created_at]. *)
Theorem requests_keep_owner_and_creation_time :
  forall req B db r r',
    db_wf db -> In r (Db.rows db) ->
    In r' (Db.rows (serve req B db)) -> Row.id r' = Row.id r ->
    Row.user_id r' = Row.user_id r /\ Row.created_at r' = Row.created_at r.
Proof.
  intros req B db r r' Hwf Hr Hr' E.
  destruct (serve_effect req B db)
    as [|row Hid _ _ _|old row Hold _ _ Hid Hu Hc _ _|old _ _ _]; simpl in Hr'.
  - now rewrite (same_id_same_row r' r Hwf Hr' Hr E).
  - apply in_app_or in Hr' as [Hr'|[<-|[]]].
    + now rewrite (same_id_same_row r' r Hwf Hr' Hr E).
    + exfalso. apply (below_sequence_fresh Hwf).
      rewrite <- Hid, E. now apply in_map.
  - apply in_map_iff in Hr' as (x & Hx & Hin).
    destruct (has_id (Row.id row) x) eqn:Hh.
    + subst r'. rewrite Hid in E.
      rewrite <- (same_id_same_row old r Hwf Hold Hr E). auto.
    + subst x. now rewrite (same_id_same_row r' r Hwf Hin Hr E).
  - apply filter_In in Hr' as [Hr' _].
    now rewrite (same_id_same_row r' r Hwf Hr' Hr E).
Qed.

Lemma requests_keep_owner_and_creation_time_witness :
  Row.user_id (Row.mk 1 "u1" "Buy bread" None false "medium" None 1000 2000)
  = Row.user_id sample_row
  /\ Row.created_at (Row.mk 1 "u1" "Buy bread" None false "medium" None 1000 2000)
     = Row.created_at sample_row.
Proof.
  refine (@requests_keep_owner_and_creation_time
            (PATCH "u1" 1 (Body.mk (Given "Buy bread") Absent Absent Absent Absent)
                   2000)
            "u1" sample_db sample_row
            (Row.mk 1 "u1" "Buy bread" None false "medium" None 1000 2000)
            sample_db_wf (or_introl eq_refl) _ eq_refl).
  vm_compute. auto.
Defined.

Lemma get_task_not_found user_id task_id db :
  filter (where_id_and_user_id task_id user_id) (Db.rows db) = [] ->
  get_task user_id task_id user_id db = (Raise not_found, db).
Proof.
  intros H. unfold get_task. run_session. now rewrite gate_passes, H.
Qed.

Lemma delete_task_not_found user_id task_id db :
  filter (where_id_and_user_id task_id user_id) (Db.rows db) = [] ->
  delete_task user_id task_id user_id db = (Raise not_found, db).
Proof.
  intros H. unfold delete_task. run_session. now rewrite gate_passes, H.
Qed.

(** X7.  Deleting an existing task of the caller succeeds and removes
    exactly that row; afterwards the task is gone for good: a get and a
    second delete of the same identifier answer 404, and the listing no
    longer shows it. *)
Theorem delete_then_not_found :
  forall db r,
    db_wf db -> In r (Db.rows db) ->
    let owner := Row.user_id r in
    let db' := remove_row (Row.id r) db in
    delete_task owner (Row.id r) owner db = (Return tt, db')
    /\ stored_row db' (Row.id r) = None
    /\ (forall r', In r' (Db.rows db') <-> In r' (Db.rows db) /\ r' <> r)
    /\ get_task owner (Row.id r) owner db' = (Raise not_found, db')
    /\ delete_task owner (Row.id r) owner db' = (Raise not_found, db')
    /\ (forall tasks, fst (list_tasks owner owner db') = Return tasks ->
                      ~ In (response_of r) tasks).
Proof.
  intros db r Hwf Hr owner db'.
  assert (filter (where_id_and_user_id (Row.id r) owner) (Db.rows db') = [])
    as Hq by (apply select_no_id, remove_row_no_id).
  assert (forall r', In r' (Db.rows db') <-> In r' (Db.rows db) /\ r' <> r)
    as Hrows.
  { intros r'. unfold db', remove_row. simpl. rewrite filter_In.
    unfold has_id. split.
    - intros [Hin Hne]. split; [exact Hin|]. intros ->.
      rewrite Z.eqb_refl in Hne. discriminate.
    - intros [Hin Hne]. split; [exact Hin|].
      destruct (Z.eqb_spec (Row.id r') (Row.id r)) as [E|]; [|reflexivity].
      exfalso. apply Hne. exact (same_id_same_row r' r Hwf Hin Hr E). }
  split; [now apply delete_task_ok|].
  split; [apply removed_row_gone|].
  split; [exact Hrows|].
  split; [now apply get_task_not_found|].
  split; [now apply delete_task_not_found|].
  intros tasks Ht. rewrite list_tasks_answer in Ht. simpl in Ht.
  injection Ht as <-. intros Hin.
  apply in_map_iff in Hin as (x & E & Hx).
  apply (Permutation_in _ (order_perm _)) in Hx.
  apply filter_In in Hx as [Hx _]. apply Hrows in Hx as [Hx Hne].
  apply Hne. apply (same_id_same_row x r Hwf Hx Hr). now injection E.
Qed.

Lemma delete_then_not_found_witness :
  delete_task "u1" 1 "u1" sample_db = (Return tt, Db.mk [] 2)
  /\ get_task "u1" 1 "u1" (Db.mk [] 2) = (Raise not_found, Db.mk [] 2)
  /\ delete_task "u1" 1 "u1" (Db.mk [] 2) = (Raise not_found, Db.mk [] 2).
Proof.
  destruct (@delete_then_not_found sample_db sample_row sample_db_wf
              (or_introl eq_refl))
    as (H1 & _ & _ & H2 & H3 & _).
  exact (conj H1 (conj H2 H3)).
Defined.







(** X10.  A partial update that sends [null] for [title], [completed]
    or [priority] is not refused by validation; the handler assigns the
    [None], the write violates the column's [nullable=False], and the
    answer is 500 "Internal server error" with the table as it was. *)
Theorem patch_null_is_an_internal_error :
  forall db r body d now,
    db_wf db -> In r (Db.rows db) ->
    Body.title body = Null \/ Body.completed body = Null
    \/ Body.priority body = Null ->
    TaskPartialUpdate.model_validate body = Return d ->
    patch_route (Row.user_id r) (Row.id r) body (Row.user_id r) now db
    = (Raise (HTTPException HTTP_500_INTERNAL_SERVER_ERROR
                            "Internal server error"), db).
Proof.
  intros db r body d now Hwf Hr Hnull Hval.
  apply patch_route_null with (d := d); auto.
  unfold nulls_a_required_column.
  destruct Hnull as [->|[H|H]].
  - reflexivity.
  - rewrite H. now destruct (Body.title body).
  - rewrite H. now destruct (Body.title body), (Body.completed body).
Qed.

Lemma patch_null_is_an_internal_error_witness :
  patch_route "u1" 1 (Body.mk Null Absent Absent Absent Absent) "u1" 2000
              sample_db
  = (Raise (HTTPException HTTP_500_INTERNAL_SERVER_ERROR "Internal server error"),
     sample_db).
Proof.
  exact (@patch_null_is_an_internal_error sample_db sample_row
           (Body.mk Null Absent Absent Absent Absent)
           (TaskPartialUpdate.mk None None None None None ["title"])
           2000 sample_db_wf (or_introl eq_refl) (or_introl eq_refl) eq_refl).
Defined.

End Effects.

(* ================================================================== *)
(** ** The bearer header and the current user *)
(* ================================================================== *)

Section Bearer.

Lemma all_space_first s :
  Py.all_space s = true ->
  s = "" \/ exists c s', s = String c s' /\ Py.isspace c = true.
Proof.
  destruct s as [|c s]; simpl; [auto|]. intros H.
  apply andb_true_iff in H as [H _]. right. eauto.
Qed.

Lemma split_all_space s : Py.all_space s = true -> split s = [].
Proof.
  induction s as [|c s IH]; simpl; [reflexivity|]. intros H.
  apply andb_true_iff in H as [-> H]. now apply IH.
Qed.

Lemma split_skip l s : Py.all_space l = true -> split (l ++ s) = split s.
Proof.
  induction l as [|c l IH]; simpl; [reflexivity|]. intros H.
  apply andb_true_iff in H as [-> H]. now apply IH.
Qed.

Lemma split_word w s :
  word w ->
  s = "" \/ (exists c s', s = String c s' /\ Py.isspace c = true) ->
  split (w ++ s) = w :: split s.
Proof.
  intros [Hne Hns] Hs. induction w as [|c w IH]; [contradiction|].
  simpl in Hns. apply andb_true_iff in Hns as [Hc Hns].
  apply negb_true_iff in Hc. destruct w as [|e w'].
  - destruct Hs as [->|(d & s' & -> & Hd)]; simpl; rewrite Hc;
      [reflexivity|]. now rewrite Hd.
  - change ((String c (String e w') ++ s)%string)
      with (String c (String e w' ++ s)%string).
    change (split (String c (String e w' ++ s)%string))
      with (if Py.isspace c then split (String e w' ++ s)%string
            else if Py.isspace e
                 then String c EmptyString :: split (String e w' ++ s)%string
                 else match split (String e w' ++ s)%string with
                      | w0 :: ws => String c w0 :: ws
                      | [] => [String c EmptyString]
                      end).
    rewrite Hc. pose proof Hns as Hns'. simpl in Hns'.
    apply andb_true_iff in Hns' as [He _]. apply negb_true_iff in He.
    rewrite He. rewrite IH; [reflexivity | discriminate | exact Hns].
Qed.

(** What [split] returns, read back on the string. *)
Lemma split_nil s : split s = [] -> Py.all_space s = true.
Proof.
  induction s as [|c s IH]; simpl; [reflexivity|].
  destruct (Py.isspace c) eqn:C; [exact IH|].
  destruct s as [|d s']; [discriminate|].
  destruct (Py.isspace d); [discriminate|].
  destruct (split (String d s')); discriminate.
Qed.

Lemma split_cons s w ws :
  split s = w :: ws ->
  exists l rest,
    s = (l ++ w ++ rest)%string /\ Py.all_space l = true /\ word w
    /\ (rest = "" \/ exists c s', rest = String c s' /\ Py.isspace c = true)
    /\ split rest = ws.
Proof.
  revert w ws. induction s as [|c s IH]; intros w ws; [discriminate|].
  change (split (String c s))
    with (if Py.isspace c then split s
          else match s with
               | EmptyString => [String c EmptyString]
               | String d _ =>
                   if Py.isspace d then String c EmptyString :: split s
                   else match split s with
                        | w0 :: ws0 => String c w0 :: ws0
                        | [] => [String c EmptyString]
                        end
               end).
  destruct (Py.isspace c) eqn:C.
  - intros H. destruct (IH _ _ H) as (l & rest & -> & Hl & Hw & Hr & Hs).
    exists (String c l), rest. simpl. rewrite C, Hl. auto.
  - destruct s as [|d s'].
    + intros [= <- <-]. exists "", "". simpl. repeat split; auto.
      * discriminate.
      * simpl. now rewrite C.
    + destruct (Py.isspace d) eqn:D.
      * intros [= <- <-]. exists "", (String d s'). simpl.
        repeat split; eauto; [discriminate | simpl; now rewrite C].
      * destruct (split (String d s')) as [|w0 ws0] eqn:S.
        { apply split_nil in S. simpl in S. rewrite D in S. discriminate. }
        intros [= <- <-].
        destruct (IH _ _ eq_refl) as (l & rest & E & Hl & (Hne & Hns) & Hr & Hs).
        destruct l as [|x l'].
        -- simpl in E. exists "", rest. simpl. rewrite E.
           repeat split; auto; [discriminate | simpl; now rewrite C, Hns].
        -- simpl in E, Hl. injection E as <- _. rewrite D in Hl. discriminate.
Qed.

Lemma lower_char_space c : Py.isspace (Py.lower_char c) = Py.isspace c.
Proof. destruct c as [[] [] [] [] [] [] [] []]; reflexivity. Qed.

Lemma lower_no_space s : no_space (Py.lower s) = no_space s.
Proof.
  induction s as [|c s IH]; simpl; [reflexivity|].
  now rewrite lower_char_space, IH.
Qed.

Lemma split_words s : Forall word (split s).
Proof.
  remember (split s) as ws eqn:E. revert s E.
  induction ws as [|w ws IH]; intros s E; [constructor|].
  symmetry in E. destruct (split_cons _ E) as (l & rest & _ & _ & Hw & _ & Hs).
  constructor; [exact Hw|]. apply (IH rest). now symmetry.
Qed.

Lemma bearer_header_sound_failure header e :
  extract_token_from_header (Some header) = Raise e -> e = not_authenticated.
Proof.
  unfold extract_token_from_header.
  destruct (negb (Py.truthy header)); [now intros [= <-]|].
  destruct (split header) as [|scheme [|tok [|x xs]]];
    try (now intros [= <-]).
  destruct (negb (Py.lower scheme =? "bearer")%string);
    [now intros [= <-] | discriminate].
Qed.

Lemma bearer_token_is_word header token :
  extract_token_from_header (Some header) = Return token -> word token.
Proof.
  unfold extract_token_from_header.
  destruct (negb (Py.truthy header)); [discriminate|].
  pose proof (split_words header) as Hw.
  destruct (split header) as [|scheme [|tok [|x xs]]]; try discriminate.
  destruct (negb (Py.lower scheme =? "bearer")%string); [discriminate|].
  intros [= <-]. inversion Hw as [|? ? _ Hw']. now inversion Hw'.
Qed.

(** X11.  The bearer header.  A header yields a token exactly when it
    is a scheme that is [bearer] in any case, then whitespace, then a
    token without whitespace, with optional whitespace around; the token
    is returned as it stands.  In every other case, and without a
    header, the answer is 401 "Not authenticated". *)
Theorem bearer_header_characterised :
  forall header : string,
    (forall token,
        extract_token_from_header (Some header) = Return token
        <-> exists l1 scheme l2 l3,
          header = (l1 ++ scheme ++ l2 ++ token ++ l3)%string
          /\ Py.all_space l1 = true /\ Py.lower scheme = "bearer"
          /\ l2 <> "" /\ Py.all_space l2 = true
          /\ word token /\ Py.all_space l3 = true)
    /\ (forall e,
           extract_token_from_header (Some header) = Raise e ->
           e = HTTPException HTTP_401_UNAUTHORIZED "Not authenticated")
    /\ extract_token_from_header None
       = Raise (HTTPException HTTP_401_UNAUTHORIZED "Not authenticated").
Proof.
  intros header. split; [|split; [|reflexivity]].
  - intros token. unfold extract_token_from_header. split.
    + destruct (Py.truthy header); simpl; [|discriminate].
      destruct (split header) as [|scheme [|tok [|x xs]]] eqn:S; try discriminate.
      destruct (String.eqb_spec (Py.lower scheme) "bearer") as [Eb|];
        simpl; [|discriminate].
      intros [= ->].
      destruct (split_cons _ S) as (l1 & rest1 & E1 & H1 & _ & Hr1 & S1).
      destruct (split_cons _ S1) as (l2 & rest2 & E2 & H2 & Hw & _ & S2).
      apply split_nil in S2.
      exists l1, scheme, l2, rest2. rewrite E1, E2.
      repeat split; auto; try apply Hw.
      intros ->. simpl in E2. destruct Hw as [Hne Hns].
      destruct Hr1 as [->|(c & s' & -> & Hc)].
      * destruct token; [contradiction | discriminate].
      * destruct token as [|t token']; [contradiction|].
        simpl in E2, Hns. injection E2 as <- _. now rewrite Hc in Hns.
    + intros (l1 & scheme & l2 & l3 & -> & H1 & Hb & Hne2 & H2 & Hw & H3).
      assert (word scheme) as Hws.
      { split.
        - intros ->. discriminate.
        - rewrite <- lower_no_space, Hb. reflexivity. }
      assert (split (l1 ++ scheme ++ l2 ++ token ++ l3) = [scheme; token]) as S.
      { rewrite split_skip by exact H1.
        rewrite split_word; [|exact Hws|].
        - rewrite split_skip by exact H2.
          rewrite split_word; [|exact Hw | now apply all_space_first].
          now rewrite split_all_space.
        - right. destruct l2 as [|c l2']; [contradiction|].
          simpl in H2. apply andb_true_iff in H2 as [Hc _].
          exists c, (l2' ++ token ++ l3)%string. split; [reflexivity | exact Hc]. }
      assert (Py.truthy (l1 ++ scheme ++ l2 ++ token ++ l3) = true) as ->.
      { destruct (l1 ++ scheme ++ l2 ++ token ++ l3)%string eqn:E;
          [discriminate S | reflexivity]. }
      simpl. rewrite S, Hb. reflexivity.
  - intros e. unfold extract_token_from_header.
    destruct (negb (Py.truthy header)); [now intros [= <-]|].
    destruct (split header) as [|scheme [|tok [|x xs]]];
      try (now intros [= <-]).
    destruct (negb (Py.lower scheme =? "bearer")%string);
      [now intros [= <-] | discriminate].
Qed.

(** The header of a client, with a token of three dotted parts. *)
Example bearer_header_sample :
  extract_token_from_header (Some "Bearer eyJhbGciOi.eyJzdWIiOi.c2lnbmF0dXJl")
  = Return "eyJhbGciOi.eyJzdWIiOi.c2lnbmF0dXJl".
Proof. reflexivity. Qed.

Lemma verify_token_only_401 jwt_decode token e :
  verify_token jwt_decode token = Raise e -> e = not_authenticated.
Proof.
  unfold verify_token. destruct (jwt_decode token) as [payload| | |];
    try (now intros [= <-]).
  destruct (forallb _ _); [discriminate | now intros [= <-]].
Qed.

Lemma verify_token_verified jwt_decode token payload :
  verify_token jwt_decode token = Return payload ->
  jwt_decode token = Decoded payload
  /\ forall claim, In claim require -> dict_get payload claim <> JNull.
Proof.
  unfold verify_token. destruct (jwt_decode token) as [p| | |];
    try discriminate.
  destruct (forallb (has_claim p) require) eqn:F; [|discriminate].
  intros [= <-]. split; [reflexivity|].
  intros claim Hin. rewrite forallb_forall in F. specialize (F claim Hin).
  unfold has_claim in F. intros E. rewrite E in F. discriminate.
Qed.

(** X12.  The identity of a request.  Whatever the header and whatever
    the JWT library answers, [get_current_user] fails only with 401
    "Not authenticated"; and a subject it returns is the truthy [sub]
    claim of a payload that the library decoded from the token of a
    well-formed bearer header and that carries [sub], [exp] and [iat]. *)
Theorem current_user_is_verified_or_401 :
  forall (jwt_decode : string -> JwtOutcome) (authorization : option string),
    (forall e,
        get_current_user jwt_decode authorization = Raise e ->
        e = HTTPException HTTP_401_UNAUTHORIZED "Not authenticated")
    /\ (forall user_id,
           get_current_user jwt_decode authorization = Return user_id ->
           exists token payload,
             extract_token_from_header authorization = Return token
             /\ word token
             /\ jwt_decode token = Decoded payload
             /\ dict_get payload "sub" = user_id
             /\ truthy user_id = true
             /\ dict_get payload "exp" <> JNull
             /\ dict_get payload "iat" <> JNull).
Proof.
  intros jwt_decode authorization. unfold get_current_user. split.
  - intros e.
    destruct (extract_token_from_header authorization) as [token|e0] eqn:X;
      simpl.
    + unfold get_user_id_from_token.
      destruct (verify_token jwt_decode token) as [payload|e1] eqn:V; simpl.
      * destruct (truthy (dict_get payload "sub")); simpl;
          [discriminate | now intros [= <-]].
      * intros [= <-]. now apply verify_token_only_401 in V.
    + intros [= <-]. destruct authorization as [h|]; [|now injection X as <-].
      now apply (bearer_header_sound_failure h).
  - intros user_id.
    destruct (extract_token_from_header authorization) as [token|e0] eqn:X;
      simpl; [|discriminate].
    unfold get_user_id_from_token.
    destruct (verify_token jwt_decode token) as [payload|e1] eqn:V; simpl;
      [|discriminate].
    destruct (truthy (dict_get payload "sub")) eqn:T; simpl; [|discriminate].
    intros [= <-]. apply verify_token_verified in V as [Hd Hreq].
    exists token, payload.
    split; [reflexivity|]. split.
    { destruct authorization as [h|]; [|discriminate].
      now apply (bearer_token_is_word h). }
    split; [exact Hd|]. split; [reflexivity|]. split; [exact T|].
    split; apply Hreq; simpl; auto.
Qed.

End Bearer.

(* ================================================================== *)
(** ** The key-set cache and the key lookup *)
(* ================================================================== *)

Section KeyLookup.

Variable url : string.

Lemma find_none_filtered k ls :
  find (TTLCache.has_key k)
       (filter (fun l => negb (TTLCache.has_key k l)) ls) = None.
Proof.
  induction ls as [|l ls IH]; simpl; [reflexivity|].
  destruct (TTLCache.has_key k l) eqn:E; simpl; [exact IH | now rewrite E].
Qed.

Lemma find_in_app (A : Type) (f : A -> bool) l1 l2 :
  find f (l1 ++ l2)
  = match find f l1 with Some x => Some x | None => find f l2 end.
Proof.
  induction l1 as [|a l1 IH]; simpl; [reflexivity|].
  now destruct (f a).
Qed.

Lemma setitem_find c k v t :
  find (TTLCache.has_key k) (TTLCache.links (TTLCache.setitem c k v t))
  = Some (TTLCache.mkLink k v (t + TTLCache.ttl c)).
Proof.
  unfold TTLCache.setitem. simpl.
  rewrite find_in_app, find_none_filtered. simpl.
  unfold TTLCache.has_key. simpl. now rewrite String.eqb_refl.
Qed.

Lemma expire_suffix t ls :
  exists pre, ls = (pre ++ TTLCache.expire t ls)%list.
Proof.
  induction ls as [|l ls (pre & E)]; simpl; [now exists []|].
  destruct (negb (t <? TTLCache.expires l)).
  - exists (l :: pre). simpl. now rewrite <- E.
  - now exists [].
Qed.

Lemma nodup_keys_filter (p : TTLCache.link -> bool) ls :
  NoDup (map TTLCache.key ls) -> NoDup (map TTLCache.key (filter p ls)).
Proof.
  induction ls as [|l ls IH]; simpl; intros H; [constructor|].
  inversion H as [|? ? Hn H']; subst.
  destruct (p l); simpl; [|now apply IH].
  constructor; [|now apply IH].
  intros Hin. apply Hn. apply in_map_iff in Hin as (x & E & Hx).
  apply filter_In in Hx as [Hx _]. rewrite <- E. now apply in_map.
Qed.

Lemma filter_shorter k ls :
  existsb (TTLCache.has_key k) ls = true ->
  (List.length (filter (fun l => negb (TTLCache.has_key k l)) ls)
   < List.length ls)%nat.
Proof.
  induction ls as [|l ls IH]; simpl; [discriminate|].
  destruct (TTLCache.has_key k l) eqn:E; simpl.
  - intros _. pose proof (filter_length_le (fun l => negb (TTLCache.has_key k l)) ls).
    lia.
  - intros H. apply IH in H. lia.
Qed.

Lemma setitem_ok c k v t : cache_ok c -> cache_ok (TTLCache.setitem c k v t).
Proof.
  intros (Hm & Ht & Hlen & Hnd). unfold cache_ok, TTLCache.setitem. simpl.
  split; [exact Hm|]. split; [exact Ht|].
  destruct (expire_suffix t (TTLCache.links c)) as (pre & E).
  set (ls := TTLCache.expire t (TTLCache.links c)) in *.
  assert (List.length ls <= 10)%nat as Hls.
  { rewrite E in Hlen. rewrite length_app in Hlen. lia. }
  assert (NoDup (map TTLCache.key ls)) as Hndls.
  { rewrite E, map_app in Hnd. now apply NoDup_app_remove_l in Hnd. }
  rewrite Hm. split.
  - rewrite length_app. simpl.
    destruct (existsb (TTLCache.has_key k) ls) eqn:X.
    + pose proof (filter_shorter k ls X). lia.
    + pose proof (filter_length_le (fun l => negb (TTLCache.has_key k l))
                                   (skipn (List.length ls + 1 - 10) ls)).
      rewrite length_skipn in H. lia.
  - rewrite map_app. simpl. apply NoDup_app.
    + apply nodup_keys_filter.
      destruct (existsb (TTLCache.has_key k) ls); [exact Hndls|].
      rewrite <- (firstn_skipn (List.length ls + 1 - 10) ls), map_app in Hndls.
      now apply NoDup_app_remove_l in Hndls.
    + repeat constructor. intros [].
    + intros a Ha [<-|[]]. apply in_map_iff in Ha as (x & Ex & Hx).
      apply filter_In in Hx as [_ Hx]. unfold TTLCache.has_key in Hx.
      rewrite Ex, String.eqb_refl in Hx. discriminate.
Qed.

(** X13.  The module cache stays within its bound: starting from the
    empty [_jwks_cache], whatever URLs are fetched, at whatever times
    and with whatever answers, and whatever keys are looked up, it holds
    at most 10 key sets and at most one per URL. *)
Theorem jwks_cache_stays_bounded :
  cache_ok _jwks_cache
  /\ forall cache,
      cache_ok cache ->
      (forall jwks_url force now later response,
          cache_ok (snd (fetch_jwks jwks_url force now later response cache)))
      /\ (forall jwks_url kid now1 later1 response1 now2 later2 response2,
             cache_ok (snd (get_key_by_kid jwks_url kid now1 later1 response1
                                           now2 later2 response2 cache)))
      /\ (forall jwks_url now later response,
             cache_ok (snd (get_all_keys jwks_url now later response cache))).
Proof.
  split.
  - unfold cache_ok, _jwks_cache. simpl. repeat split; [lia | constructor].
  - intros cache H.
    assert (forall u force now later response c,
               cache_ok c ->
               cache_ok (snd (fetch_jwks u force now later response c))) as F.
    { intros u force now later response c Hc. unfold fetch_jwks.
      destruct (negb force && TTLCache.contains c u now).
      - now destruct (TTLCache.getitem c u now).
      - destruct response as [jwks| |e]; simpl.
        + now apply setitem_ok.
        + destruct (TTLCache.contains c u later); [|exact Hc].
          now destruct (TTLCache.getitem c u later).
        + exact Hc. }
    split; [intros; now apply F|]. split.
    + intros. unfold get_key_by_kid.
      pose proof (F jwks_url false now1 later1 response1 cache H) as H1.
      destruct (fetch_jwks jwks_url false now1 later1 response1 cache)
        as [[jwks|e] c1]; simpl in *; [|exact H1].
      destruct (search kid jwks) as [[key|]|e]; simpl; try exact H1.
      pose proof (F jwks_url true now2 later2 response2 c1 H1) as H2.
      now destruct (fetch_jwks jwks_url true now2 later2 response2 c1)
        as [[jwks2|e] c2].
    + intros. unfold get_all_keys.
      pose proof (F jwks_url false now later response cache H) as H1.
      now destruct (fetch_jwks jwks_url false now later response cache)
        as [[jwks|e] c1].
Qed.

Lemma fetch_stores force now later jwks cache :
  force = true \/ TTLCache.contains cache url now = false ->
  snd (fetch_jwks url force now later (Fetched jwks) cache)
  = TTLCache.setitem cache url jwks later.
Proof.
  intros Hgo. unfold fetch_jwks.
  assert (negb force && TTLCache.contains cache url now = false) as ->.
  { destruct Hgo as [->| ->]; [reflexivity | apply andb_false_r]. }
  reflexivity.
Qed.

Lemma stored_then_served jwks cache later t t' response :
  t < later + TTLCache.ttl cache ->
  fetch_jwks url false t t' response (TTLCache.setitem cache url jwks later)
  = (Return jwks, TTLCache.setitem cache url jwks later).
Proof.
  intros Ht. unfold fetch_jwks, TTLCache.contains, TTLCache.getitem.
  rewrite setitem_find. simpl TTLCache.expires. simpl TTLCache.value.
  apply Z.ltb_lt in Ht. rewrite Ht. reflexivity.
Qed.

(** X14.  A key set that [fetch_jwks] has fetched (on a forced refresh,
    or because the cache did not serve the URL) is what every later call
    for that URL returns, without a remote call and whatever the remote
    end would answer, as long as the timer is below the fetch time plus
    3600; from that time on the cache no longer serves it and a failing
    remote call is raised. *)
Theorem fetched_key_set_is_served_for_an_hour :
  forall force now later jwks cache,
    cache_ok cache ->
    force = true \/ TTLCache.contains cache url now = false ->
    let cache' := snd (fetch_jwks url force now later (Fetched jwks) cache) in
    (forall t t' response,
        t < later + 3600 ->
        fetch_jwks url false t t' response cache' = (Return jwks, cache'))
    /\ (forall t t',
           later + 3600 <= t -> t <= t' ->
           fetch_jwks url false t t' Failed_HTTPError cache'
           = (Raise HTTPError, cache')).
Proof.
  intros force now later jwks cache (_ & Httl & _) Hgo cache'.
  unfold cache'. rewrite (@fetch_stores force now later jwks cache Hgo). split.
  - intros t t' response Ht. apply stored_then_served. now rewrite Httl.
  - intros t t' Ht Hle. apply fetch_failure_after_expiry; [exact Hle|].
    unfold TTLCache.contains. rewrite setitem_find. simpl.
    apply Z.ltb_ge. rewrite Httl. lia.
Qed.

Lemma first_with_kid_sound kid keys key :
  first_with_kid kid keys = Return (Some key) ->
  In key keys /\ exists d, key = JDict d /\ dict_get d "kid" = JStr kid.
Proof.
  induction keys as [|k keys IH]; simpl; [discriminate|].
  destruct k as [| | | | |d]; simpl; try discriminate.
  destruct (dict_get d "kid") as [| | |s| |] eqn:E;
    try (intros H; destruct (IH H) as [Hin Hd]; now auto).
  destruct (String.eqb_spec s kid) as [->|].
  - intros [= <-]. split; [now left | eauto].
  - intros H. destruct (IH H) as [Hin Hd]. auto.
Qed.

Lemma search_sound kid jwks key :
  search kid jwks = Return (Some key) ->
  count_keys jwks = Return tt
  /\ exists d, key = JDict d /\ dict_get d "kid" = JStr kid.
Proof.
  unfold search, get_keys, count_keys.
  destruct jwks as [| | | | |d]; simpl; try discriminate.
  destruct (existsb (fun kv => (fst kv =? "keys")%string) d); simpl.
  - destruct (dict_get d "keys") as [| | |s|l|d']; simpl; try discriminate;
      intros H; apply first_with_kid_sound in H as [_ H]; auto.
  - discriminate.
Qed.

(** X15.  A key that [get_key_by_kid] returns is a key object whose
    [kid] is the key-id asked for, whatever the cache holds and whatever
    the remote end answers. *)
Theorem looked_up_key_has_the_kid :
  forall kid now1 later1 response1 now2 later2 response2 cache key,
    fst (get_key_by_kid url kid now1 later1 response1 now2 later2 response2
                        cache)
    = Return (Some key) ->
    exists d, key = JDict d /\ dict_get d "kid" = JStr kid.
Proof.
  intros kid now1 later1 response1 now2 later2 response2 cache key.
  unfold get_key_by_kid.
  destruct (fetch_jwks url false now1 later1 response1 cache)
    as [[jwks|e] c1]; simpl; [|discriminate].
  destruct (search kid jwks) as [[k|]|e] eqn:S; simpl; try discriminate.
  - intros [= <-]. now apply search_sound in S.
  - destruct (fetch_jwks url true now2 later2 response2 c1)
      as [[jwks2|e] c2]; simpl; [|discriminate].
    intros S2. now apply search_sound in S2.
Qed.

Lemma served_from_cache cache now later response jwks :
  TTLCache.contains cache url now = true ->
  TTLCache.getitem cache url now = Some jwks ->
  fetch_jwks url false now later response cache = (Return jwks, cache).
Proof.
  intros Hc Hg. unfold fetch_jwks. now rewrite Hc, Hg.
Qed.


(** X17.  A key-id that the served key set does not have forces one
    refresh: when the remote end answers with a key set, the lookup is
    answered from that key set (the key with the key-id, or [None] if it
    has none), whether or not the old entry had expired, and the cache
    then serves the new key set for an hour. *)
Theorem unknown_kid_refreshes_once :
  forall kid cache now1 later1 response1 old now2 later2 new,
    cache_ok cache ->
    TTLCache.contains cache url now1 = true ->
    TTLCache.getitem cache url now1 = Some old ->
    search kid old = Return None ->
    count_keys new = Return tt ->
    let cache' := TTLCache.setitem cache url new later2 in
    get_key_by_kid url kid now1 later1 response1 now2 later2 (Fetched new) cache
    = (search kid new, cache')
    /\ forall t t' response,
        t < later2 + 3600 ->
        fetch_jwks url false t t' response cache' = (Return new, cache').
Proof.
  intros kid cache now1 later1 response1 old now2 later2 new
         (_ & Httl & _) Hc Hg Hs Hk cache'.
  split.
  - unfold get_key_by_kid.
    rewrite (served_from_cache cache now1 later1 response1 Hc Hg), Hs.
    unfold fetch_jwks. simpl. now rewrite Hk.
  - intros t t' response Ht. apply stored_then_served. now rewrite Httl.
Qed.

(** X18.  When the forced refresh for an unknown key-id fails with an
    HTTP error: if the cache still serves the old key set the failure is
    swallowed and the lookup answers [None]; if the old entry has
    expired by then the HTTP error is raised.  The cache is unchanged in
    both cases. *)
Theorem failed_refresh_of_unknown_kid :
  forall kid cache now1 later1 response1 old now2 later2,
    TTLCache.contains cache url now1 = true ->
    TTLCache.getitem cache url now1 = Some old ->
    search kid old = Return None ->
    (TTLCache.contains cache url later2 = true ->
     get_key_by_kid url kid now1 later1 response1 now2 later2 Failed_HTTPError
                    cache
     = (Return None, cache))
    /\ (TTLCache.contains cache url later2 = false ->
        get_key_by_kid url kid now1 later1 response1 now2 later2
                       Failed_HTTPError cache
        = (Raise HTTPError, cache)).
Proof.
  intros kid cache now1 later1 response1 old now2 later2 Hc Hg Hs.
  unfold get_key_by_kid.
  rewrite (served_from_cache cache now1 later1 response1 Hc Hg), Hs.
  unfold fetch_jwks. simpl. split; intros H2; rewrite H2; [|reflexivity].
  unfold TTLCache.contains in Hc, H2. unfold TTLCache.getitem in *.
  destruct (find (TTLCache.has_key url) (TTLCache.links cache)) as [l|];
    [|discriminate].
  rewrite H2. rewrite Hc in Hg. injection Hg as ->. now rewrite Hs.
Qed.

End KeyLookup.

Lemma sample_cache_ok : cache_ok sample_cache.
Proof.
  unfold cache_ok. simpl. repeat split; [lia|].
  repeat constructor. intros [].
Qed.

Lemma fetched_key_set_is_served_for_an_hour_witness :
  fetch_jwks sample_url false 3599 3599 Failed_HTTPError sample_cache
  = (Return (sample_jwks ["k1"]), sample_cache)
  /\ fetch_jwks sample_url false 3600 3601 Failed_HTTPError sample_cache
     = (Raise HTTPError, sample_cache).
Proof.
  destruct (@fetched_key_set_is_served_for_an_hour sample_url false 0 0
              (sample_jwks ["k1"]) _jwks_cache)
    as [H1 H2].
  - unfold cache_ok. simpl. repeat split; [lia | constructor].
  - now right.
  - split.
    + apply (H1 3599 3599 Failed_HTTPError). lia.
    + apply (H2 3600 3601); lia.
Defined.

Lemma looked_up_key_has_the_kid_witness :
  exists d, sample_key "k1" = JDict d /\ dict_get d "kid" = JStr "k1".
Proof.
  exact (@looked_up_key_has_the_kid sample_url "k1" 10 11 Failed_HTTPError
           12 13 Failed_HTTPError sample_cache (sample_key "k1") eq_refl).
Defined.


Lemma unknown_kid_refreshes_once_witness :
  get_key_by_kid sample_url "k2" 10 11 Failed_HTTPError 12 13
                 (Fetched (sample_jwks ["k1"; "k2"])) sample_cache
  = (Return (Some (sample_key "k2")),
     TTLCache.setitem sample_cache sample_url (sample_jwks ["k1"; "k2"]) 13).
Proof.
  exact (proj1 (@unknown_kid_refreshes_once sample_url "k2" sample_cache
                  10 11 Failed_HTTPError (sample_jwks ["k1"]) 12 13
                  (sample_jwks ["k1"; "k2"])
                  sample_cache_ok eq_refl eq_refl eq_refl eq_refl)).
Defined.

Lemma failed_refresh_of_unknown_kid_witness :
  get_key_by_kid sample_url "k2" 10 11 Failed_HTTPError 12 13 Failed_HTTPError
                 sample_cache
  = (Return None, sample_cache)
  /\ get_key_by_kid sample_url "k2" 3599 3599 Failed_HTTPError 3600 3601
                    Failed_HTTPError sample_cache
     = (Raise HTTPError, sample_cache).
Proof.
  split.
  - exact (proj1 (@failed_refresh_of_unknown_kid sample_url "k2" sample_cache
                    10 11 Failed_HTTPError (sample_jwks ["k1"]) 12 13
                    eq_refl eq_refl eq_refl) eq_refl).
  - exact (proj2 (@failed_refresh_of_unknown_kid sample_url "k2" sample_cache
                    3599 3599 Failed_HTTPError (sample_jwks ["k1"]) 3600 3601
                    eq_refl eq_refl eq_refl) eq_refl).
Defined.

(* ================================================================== *)
(** ** More on the routes: null priority, description, sending a task
       back, foreign paths *)
(* ================================================================== *)









Lemma body_of_validates r :
  row_fits r = true -> task_invariant r ->
  TaskUpdate.model_validate (body_of (response_of r))
  = Return (TaskUpdate.mk (Row.title r) (Row.description r) (Row.completed r)
                          (Row.priority r) (Row.due_date r)).
Proof.
  intros Hfit (Hne & Hs & Hp). unfold row_fits in Hfit.
  apply andb_true_iff in Hfit as [Hfit _].
  apply andb_true_iff in Hfit as [Hfit Fd].
  apply andb_true_iff in Hfit as [_ Ft].
  assert (acceptable_title (Row.title r)) as Ha.
  { repeat split; [exact Hne | | now apply Nat.leb_le].
    destruct (Py.all_space (Row.title r)) eqn:A; [|reflexivity].
    apply strip_empty_iff in A. congruence. }
  assert (TaskUpdate.title_field (Given (Row.title r)) = inr (Row.title r))
    as Et by (rewrite update_title_is_create, (title_accepted Ha); now rewrite Hs).
  assert (TaskUpdate.priority_field (Given (Row.priority r))
          = inr (Row.priority r)) as Ep.
  { change (TaskUpdate.priority_field (Given (Row.priority r)))
      with (TaskUpdate.validate_priority (Row.priority r)).
    now rewrite update_priority_given, (priority_level_lower Hp). }
  assert (description_field
            (match Row.description r with Some v => Given v | None => Null end)
          = inr (Row.description r)) as Ed.
  { destruct (Row.description r) as [v|]; [|reflexivity].
    simpl in Fd. unfold fits in Fd. apply Nat.leb_le in Fd. simpl.
    destruct (Nat.ltb_spec 5000 (Py.len v)); [lia | reflexivity]. }
  assert (due_date_field
            (match Row.due_date r with Some v => Given v | None => Null end)
          = inr (Row.due_date r)) as Eu
      by (destruct (Row.due_date r); reflexivity).
  unfold TaskUpdate.model_validate, body_of, response_of.
  cbn [Body.title Body.description Body.completed Body.priority Body.due_date
       TaskResponse.title TaskResponse.description TaskResponse.completed
       TaskResponse.priority TaskResponse.due_date].
  rewrite Et, Ep, Ed, Eu. reflexivity.
Qed.

(** X21.  Sending a task back.  A full replace whose body carries the
    fields of the stored task, as a get returns them, is accepted and
    changes nothing but [updated_at]: titles and priorities that the
    API stores pass its own validation unchanged. *)
Theorem put_back_changes_only_updated_at :
  forall db r now,
    db_wf db -> In r (Db.rows db) -> task_invariant r ->
    let owner := Row.user_id r in
    let row := Row.mk (Row.id r) owner (Row.title r) (Row.description r)
                      (Row.completed r) (Row.priority r) (Row.due_date r)
                      (Row.created_at r) now in
    exists resp,
      get_task owner (Row.id r) owner db = (Return resp, db)
      /\ put_route owner (Row.id r) (body_of resp) owner now db
         = (Return (response_of row), replace_row row db).
Proof.
  intros db r now Hwf Hr Hinv owner row.
  exists (response_of r). split; [now apply get_task_found|].
  pose proof (@body_of_validates r (@wf_row_fits db r Hwf Hr) Hinv) as Hval.
  exact (@put_route_ok db r (body_of (response_of r)) _ now Hwf Hr Hval).
Qed.

Lemma put_back_changes_only_updated_at_witness :
  exists resp,
    get_task "u1" 1 "u1" sample_db = (Return resp, sample_db)
    /\ put_route "u1" 1 (body_of resp) "u1" 2000 sample_db
       = (Return (TaskResponse.mk 1 "u1" "Buy milk" None false "medium" None
                                  1000 2000),
          Db.mk [Row.mk 1 "u1" "Buy milk" None false "medium" None 1000 2000] 2).
Proof.
  refine (@put_back_changes_only_updated_at sample_db sample_row 2000
            sample_db_wf (or_introl eq_refl) _).
  unfold task_invariant. simpl. repeat split; [discriminate | auto].
Defined.

(** X22.  A path owner that is not the authenticated subject never
    reaches the table: the listing and, for a body that passes
    validation, the create, the full replace and the partial update
    answer 403 "Access denied"; a body that fails validation is
    answered with its validation error first.  The table is as it was
    in every case. *)
Theorem foreign_path_never_reaches_the_table :
  forall user_id B db,
    B <> user_id ->
    let forbidden := HTTPException HTTP_403_FORBIDDEN "Access denied" in
    list_tasks user_id B db = (Raise forbidden, db)
    /\ (forall body created_now updated_now,
           post_route user_id body B created_now updated_now db
           = (match TaskCreate.model_validate body with
              | Return _ => Raise forbidden
              | Raise e => Raise e
              end, db))
    /\ (forall task_id body now,
           put_route user_id task_id body B now db
           = (match TaskUpdate.model_validate body with
              | Return _ => Raise forbidden
              | Raise e => Raise e
              end, db))
    /\ (forall task_id body now,
           patch_route user_id task_id body B now db
           = (match TaskPartialUpdate.model_validate body with
              | Return _ => Raise forbidden
              | Raise e => Raise e
              end, db)).
Proof.
  intros user_id B db Hne forbidden.
  pose proof (gate_refuses Hne) as G.
  split; [|split; [|split]].
  - unfold list_tasks. run_session. now rewrite G.
  - intros. unfold post_route, create_task. run_session.
    destruct (TaskCreate.model_validate body); [now rewrite G | reflexivity].
  - intros. unfold put_route, update_task. run_session.
    destruct (TaskUpdate.model_validate body); [now rewrite G | reflexivity].
  - intros. unfold patch_route, patch_task. run_session.
    destruct (TaskPartialUpdate.model_validate body);
      [now rewrite G | reflexivity].
Qed.

Lemma foreign_path_never_reaches_the_table_witness :
  list_tasks "u1" "u2" sample_db
  = (Raise (HTTPException HTTP_403_FORBIDDEN "Access denied"), sample_db).
Proof.
  refine (proj1 (@foreign_path_never_reaches_the_table "u1" "u2" sample_db _)).
  discriminate.
Defined.
